(** * KernelDMD: delay-embedded kernel DMD on top of a Nystroem kernel model

    A shallow embedding of [DSA/kerneldmd.py].  The class [KernelDMD] is a
    thin subclass of the [NystroemKernel] model of the kooplearn library: it
    builds Hankel (delay-embedded) contexts from trajectories, hands them to
    the inherited [fit] and [predict], and does the shape bookkeeping.

    - numpy arrays are a shape together with the row-major list of their
      elements; the scalar type is abstract (no statement depends on
      floating-point rounding);
    - Python exceptions are values of [exn]; a method is a computation on the
      object's attributes that also records the library calls it makes;
    - kooplearn's [traj_to_contexts], [NystroemKernel.fit] and
      [NystroemKernel.predict], and numpy's linear algebra, are taken as
      given: they are the variables of the section. *)

From Stdlib Require Import String List Arith ZArith Lia Bool.
Import ListNotations.

Set Implicit Arguments.

(** ** Exceptions and results *)

Inductive exn : Type :=
| NotImplementedError
| IndexError
| ValueError
| TypeError
| AttributeError
| LibraryError (code : nat).

Inductive result (A : Type) : Type :=
| Ok (a : A)
| Raise (e : exn).

Arguments Ok {A} a.
Arguments Raise {A} e.

Definition result_bind {A B} (r : result A) (k : A -> result B) : result B :=
  match r with
  | Ok a => k a
  | Raise e => Raise e
  end.

(** ** Lists cut into blocks *)

(** [chunks n k l]: the first [k] consecutive blocks of [n] elements of [l]. *)
Fixpoint chunks {A} (n k : nat) (l : list A) : list (list A) :=
  match k with
  | 0 => []
  | S k' => firstn n l :: chunks n k' (skipn n l)
  end.

Definition size_of (sh : list nat) : nat := fold_right Nat.mul 1 sh.

Fixpoint shape_eqb (a b : list nat) : bool :=
  match a, b with
  | [], [] => true
  | x :: a', y :: b' => (x =? y) && shape_eqb a' b'
  | _, _ => false
  end.

Section NdArray.

(** The scalar type of the arrays, and the value [np.zeros] fills with. *)
Variable F : Type.
Variable zero : F.

(** ** numpy arrays *)

Record ndarray : Type := mk_nd { shape : list nat; elems : list F }.

Definition ndim (a : ndarray) : nat := length (shape a).

(** The elements agree in number with the shape. *)
Definition well_formed (a : ndarray) : Prop :=
  length (elems a) = size_of (shape a).

(** [a[np.newaxis, :, :]] *)
Definition newaxis (a : ndarray) : ndarray := mk_nd (1 :: shape a) (elems a).

(** [len(a)] *)
Definition nd_len (a : ndarray) : result nat :=
  match shape a with
  | [] => Raise TypeError
  | k :: _ => Ok k
  end.

(** [a[i]] for a non-negative integer [i] *)
Definition nd_item (a : ndarray) (i : nat) : result ndarray :=
  match shape a with
  | [] => Raise IndexError
  | k :: sh =>
      if i <? k
      then Ok (mk_nd sh (firstn (size_of sh) (skipn (i * size_of sh) (elems a))))
      else Raise IndexError
  end.

(** [np.concatenate((a, b), axis=0)] *)
Definition concatenate (a b : ndarray) : result ndarray :=
  match shape a, shape b with
  | ka :: sa, kb :: sb =>
      if shape_eqb sa sb
      then Ok (mk_nd (ka + kb :: sa) (elems a ++ elems b))
      else Raise ValueError
  | _, _ => Raise ValueError
  end.

(** [np.zeros(sh)] *)
Definition zeros (sh : list nat) : ndarray := mk_nd sh (repeat zero (size_of sh)).

(** [a.squeeze()]: every axis of length one is dropped. *)
Definition squeeze (a : ndarray) : ndarray :=
  mk_nd (filter (fun d => negb (d =? 1)) (shape a)) (elems a).

(** [np.array(l)] for a list of arrays: a new leading axis when all the
    arrays have one shape ([ValueError] for a ragged list, as in current
    numpy); the empty list gives the empty 1-D array. *)
Definition np_array (l : list ndarray) : result ndarray :=
  match l with
  | [] => Ok (mk_nd [0] [])
  | a :: _ =>
      if forallb (fun b => shape_eqb (shape a) (shape b)) l
      then Ok (mk_nd (List.length l :: shape a) (concat (map elems l)))
      else Raise ValueError
  end.

(** [a.reshape(k, m, n)] where the middle length [m] is a Python integer:
    a non-negative one is checked against the size, [-1] is inferred, any
    other negative one is refused. *)
Definition reshape3 (a : ndarray) (k : nat) (m : Z) (n : nat) : result ndarray :=
  let sz := size_of (shape a) in
  if (0 <=? m)%Z then
    if sz =? k * Z.to_nat m * n
    then Ok (mk_nd [k; Z.to_nat m; n] (elems a))
    else Raise ValueError
  else if (m =? -1)%Z then
    if (k * n =? 0) || negb (sz mod (k * n) =? 0)
    then Raise ValueError
    else Ok (mk_nd [k; sz / (k * n); n] (elems a))
  else Raise ValueError.

(** The slice bounds of [lo:hi] on an axis of length [t]. *)
Definition clamp (t i : nat) : nat := Nat.min i t.

(** [a[:, lo:hi]] ([hi = None] for an open upper end) *)
Definition slice_axis1 (a : ndarray) (lo : nat) (hi : option nat) : result ndarray :=
  match shape a with
  | k :: t :: sh =>
      let inner := size_of sh in
      let l := clamp t lo in
      let h := Nat.max l (match hi with Some h => clamp t h | None => t end) in
      Ok (mk_nd (k :: (h - l) :: sh)
            (concat (map (fun blk => firstn ((h - l) * inner) (skipn (l * inner) blk))
                       (chunks (t * inner) k (elems a)))))
  | _ => Raise IndexError
  end.

(** The rows written into a slice of [m] rows from a value with [mv] rows:
    the value itself when the lengths agree, otherwise its single row
    repeated (numpy broadcasting of an axis of length one). *)
Definition broadcast_rows (inner m mv : nat) (v : list F) : list F :=
  if mv =? m then v else concat (repeat (firstn inner v) m).

(** [a[:, lo:hi] = v] for a value [v] with the leading and trailing axes of
    the slice; the updated array is returned.  This is what numpy does when
    [a] has up to three axes, the documented inputs; its further broadcasting
    rules, which only arrays of higher rank could meet here, are left out
    ([ValueError]). *)
Definition set_slice_axis1 (a : ndarray) (lo : nat) (hi : option nat)
    (v : ndarray) : result ndarray :=
  match shape a, shape v with
  | k :: t :: sh, kv :: mv :: shv =>
      let inner := size_of sh in
      let l := clamp t lo in
      let h := Nat.max l (match hi with Some h => clamp t h | None => t end) in
      let m := h - l in
      if (kv =? k) && shape_eqb shv sh && ((mv =? m) || (mv =? 1)) then
        Ok (mk_nd (shape a)
              (concat (map (fun ds =>
                              firstn (l * inner) (fst ds)
                                ++ broadcast_rows inner m mv (snd ds)
                                ++ skipn ((l + m) * inner) (fst ds))
                         (combine (chunks (t * inner) k (elems a))
                                  (chunks (mv * inner) k (elems v))))))
      else Raise ValueError
  | _ :: _ :: _, _ => Raise ValueError
  | _, _ => Raise IndexError
  end.

End NdArray.

Arguments zeros {F} zero sh.

(** [a.astype(t)] for the conversion [f] of the scalars to the type [t]:
    what numpy does to the elements of a value assigned into an array of
    another type. *)
Definition astype {F R : Type} (f : F -> R) (a : ndarray F) : ndarray R :=
  mk_nd (shape a) (map f (elems a)).

(** ** The objects of the program *)

Section KernelDMD.

(** The scalars of the data, and Python's [0] among them. *)
Variable F : Type.
Variable zero : F.

(** The scalars of a float64 array, which is what [np.zeros] makes and
    what the library's predictions are, and the conversion numpy applies to
    a value assigned into such an array. *)
Variable R : Type.
Variable float64 : F -> R.

Local Abbreviation farray := (ndarray R).
Local Abbreviation ndarray := (ndarray F).

(** What a context dataset of the library carries besides its data array
    (index map, recorded shape, ...). *)
Variable ContextMeta : Type.

(** The context dataset returned by [traj_to_contexts]; [ctx_data] is its
    attribute [data]. *)
Record Contexts : Type := mk_contexts { ctx_data : ndarray; ctx_meta : ContextMeta }.

(** [data.data = d] *)
Definition set_ctx_data (c : Contexts) (d : ndarray) : Contexts :=
  mk_contexts d (ctx_meta c).

(** The Python values the methods receive and store: a torch tensor, a
    numpy array, a list of arrays, or a context dataset. *)
Inductive pyobj : Type :=
| Tensor (a : ndarray)
| Array (a : ndarray)
| TrajList (l : list ndarray)
| ContextsObj (c : Contexts).

(** The attributes of the [NystroemKernel] base object that the subclass
    reads or writes; [nk_rest] stands for all the others. *)
Variable NystroemRest : Type.

Record NystroemKernel : Type := mk_nystroem {
  rank : nat;
  tikhonov_reg : option F;
  U : option ndarray;
  V : option ndarray;
  kernel_YX : option ndarray;
  nk_rest : NystroemRest
}.

Record KernelDMD : Type := mk_kerneldmd {
  super : NystroemKernel;
  n_delays : nat;
  context_window_len : nat;
  delay_interval : nat;
  verbose : bool;
  lamb : F;
  data : pyobj;
  A_v : option ndarray
}.

(** *** The library *)

Variables Kernel Solver Centers : Type.

(** [NystroemKernel.__init__(kernel, reduced_rank, rank, tikhonov_reg,
    svd_solver, num_centers)] *)
Variable nystroem_init :
  Kernel -> bool -> nat -> option F -> Solver -> Centers -> NystroemKernel.

(** [kooplearn.data.traj_to_contexts(trajectory, context_window_len, time_lag)] *)
Variable traj_to_contexts : ndarray -> nat -> nat -> result Contexts.

(** A context dataset is the library's own class: indexing it
    ([__getitem__]) and taking its length ([__len__]) are the library's, and
    so is what [traj_to_contexts] makes of a value that is not a numpy
    array, an item of a dataset for one. *)
Variable dataset_getitem : Contexts -> nat -> result pyobj.
Variable dataset_len : Contexts -> result nat.
Variable traj_to_contexts_of : pyobj -> nat -> nat -> result Contexts.

(** [NystroemKernel.fit(data)]: the outcome and the base attributes after
    the call. *)
Variable nystroem_fit : NystroemKernel -> pyobj -> result unit * NystroemKernel.

(** [NystroemKernel.predict(data)]: it reads the fitted model and changes
    none of its attributes; its predictions are a float64 array. *)
Variable nystroem_predict : NystroemKernel -> pyobj -> result farray.

(** numpy: [a @ b], [a.T] and [a / n]. *)
Variable matmul : ndarray -> ndarray -> result ndarray.
Variable transpose : ndarray -> ndarray.
Variable true_divide : ndarray -> nat -> ndarray.

(** *** Methods as computations *)

(** What a method does that is visible outside it: the library calls,
    in order, and what it prints. *)
Inductive event : Type :=
| CallTrajToContexts (traj : ndarray) (cwl lag : nat)
| CallTrajToContextsOf (x : pyobj) (cwl lag : nat)
| CallFit (d : pyobj)
| CallPredict (d : pyobj)
| PrintLine (msg : string).

Record run (A : Type) : Type := mk_run {
  outcome : result A;
  final : KernelDMD;
  calls : list event
}.

Definition M (A : Type) : Type := KernelDMD -> run A.

Definition ret {A} (a : A) : M A := fun s => mk_run (Ok a) s [].

Definition raise {A} (e : exn) : M A := fun s => mk_run (Raise e) s [].

Definition bind {A B} (m : M A) (k : A -> M B) : M B :=
  fun s =>
    let r := m s in
    match outcome r with
    | Ok a => let r' := k a (final r) in
              mk_run (outcome r') (final r') (calls r ++ calls r')
    | Raise e => mk_run (Raise e) (final r) (calls r)
    end.

(** The run [r] with the events [tr] before its own. *)
Definition prepend {A} (tr : list event) (r : run A) : run A :=
  mk_run (outcome r) (final r) (tr ++ calls r).

Definition lift {A} (r : result A) : M A := fun s => mk_run r s [].

Definition gets {A} (f : KernelDMD -> A) : M A := fun s => mk_run (Ok (f s)) s [].

Definition modify (f : KernelDMD -> KernelDMD) : M unit :=
  fun s => mk_run (Ok tt) (f s) [].

Definition emit (ev : event) : M unit := fun s => mk_run (Ok tt) s [ev].

Definition when (b : bool) (m : M unit) : M unit := if b then m else ret tt.

Notation "x <- m ;; k" := (bind m (fun x => k))
  (at level 61, m at next level, right associativity).
Notation "m ;;; k" := (bind m (fun _ => k))
  (at level 61, right associativity).

(** *** [__init__] *)

Definition init (data : pyobj) (n_delays : nat) (kernel : Kernel)
    (num_centers : Centers) (delay_interval : nat) (rank : nat)
    (reduced_rank_reg : bool) (lamb : option F) (verbose : bool)
    (svd_solver : Solver) : KernelDMD :=
  let base := nystroem_init kernel reduced_rank_reg rank lamb svd_solver num_centers in
  {| super := mk_nystroem rank (tikhonov_reg base) (U base) (V base)
                (kernel_YX base) (nk_rest base);
     n_delays := n_delays;
     context_window_len := n_delays + 1;
     delay_interval := delay_interval;
     verbose := verbose;
     lamb := match lamb with None => zero | Some l => l end;
     data := data;
     A_v := None |}.

(** *** [compute_hankel] *)

(** [trajs[i]]: an item of an array or of a tensor is again one, an item of
    a list of arrays is an array, and a context dataset is indexed by the
    library. *)
Definition getitem (trajs : pyobj) (i : nat) : result pyobj :=
  match trajs with
  | Tensor a => result_bind (nd_item a i) (fun x => Ok (Tensor x))
  | Array a => result_bind (nd_item a i) (fun x => Ok (Array x))
  | TrajList l =>
      match nth_error l i with
      | Some a => Ok (Array a)
      | None => Raise IndexError
      end
  | ContextsObj c => dataset_getitem c i
  end.

(** [len(trajs)] *)
Definition len (trajs : pyobj) : result nat :=
  match trajs with
  | Tensor a | Array a => nd_len a
  | TrajList l => Ok (List.length l)
  | ContextsObj c => dataset_len c
  end.

(** The call of the library's [traj_to_contexts] on [traj], recorded. *)
Definition call_traj_to_contexts (traj : pyobj) (cwl lag : nat) : M Contexts :=
  match traj with
  | Array a =>
      emit (CallTrajToContexts a cwl lag) ;;;
      lift (traj_to_contexts a cwl lag)
  | _ =>
      emit (CallTrajToContextsOf traj cwl lag) ;;;
      lift (traj_to_contexts_of traj cwl lag)
  end.

Definition set_data (d : pyobj) (s : KernelDMD) : KernelDMD :=
  mk_kerneldmd (super s) (n_delays s) (context_window_len s) (delay_interval s)
    (verbose s) (lamb s) d (A_v s).

(** The body of [for i in range(1, len(trajs))], over the indices left. *)
Fixpoint hankel_loop (trajs : pyobj) (idxs : list nat) (data : Contexts)
  : M Contexts :=
  match idxs with
  | [] => ret data
  | i :: idxs' =>
      traj <- lift (getitem trajs i) ;;
      cwl <- gets context_window_len ;;
      lag <- gets delay_interval ;;
      new_traj <- call_traj_to_contexts traj cwl lag ;;
      d <- lift (concatenate (ctx_data data) (ctx_data new_traj)) ;;
      hankel_loop trajs idxs' (set_ctx_data data d)
  end.

Definition compute_hankel (trajs : pyobj) : M unit :=
  let trajs := match trajs with Tensor a => Array a | _ => trajs end in
  let trajs := match trajs with
               | Array a => if ndim a =? 2 then Array (newaxis a) else trajs
               | _ => trajs
               end in
  traj <- lift (getitem trajs 0) ;;
  cwl <- gets context_window_len ;;
  lag <- gets delay_interval ;;
  data <- call_traj_to_contexts traj cwl lag ;;
  n <- lift (len trajs) ;;
  data <- hankel_loop trajs (seq 1 (n - 1)) data ;;
  modify (set_data (ContextsObj data)) ;;;
  v <- gets verbose ;;
  when v (emit (PrintLine "Hankel matrix computed")).

(** *** [compute_kernel_dmd] *)

Definition set_super (b : NystroemKernel) (s : KernelDMD) : KernelDMD :=
  mk_kerneldmd b (n_delays s) (context_window_len s) (delay_interval s)
    (verbose s) (lamb s) (data s) (A_v s).

Definition set_tikhonov_reg (r : F) (s : KernelDMD) : KernelDMD :=
  let b := super s in
  set_super (mk_nystroem (rank b) (Some r) (U b) (V b) (kernel_YX b) (nk_rest b)) s.

Definition set_A_v (a : ndarray) (s : KernelDMD) : KernelDMD :=
  mk_kerneldmd (super s) (n_delays s) (context_window_len s) (delay_interval s)
    (verbose s) (lamb s) (data s) (Some a).

(** [super().fit(d)]: the base attributes are those the library leaves,
    whether it returns or raises. *)
Definition call_fit (d : pyobj) : M unit :=
  emit (CallFit d) ;;;
  b <- gets super ;;
  modify (set_super (snd (nystroem_fit b d))) ;;;
  lift (fst (nystroem_fit b d)).

(** Reading an attribute that [fit] is to have set. *)
Definition attr (f : NystroemKernel -> option ndarray) : M ndarray :=
  b <- gets super ;;
  match f b with
  | Some a => ret a
  | None => raise AttributeError
  end.

Definition compute_kernel_dmd (lamb_arg : option F) : M unit :=
  self_lamb <- gets lamb ;;
  modify (set_tikhonov_reg (match lamb_arg with None => self_lamb | Some l => l end)) ;;;
  d <- gets data ;;
  call_fit d ;;;
  v <- attr V ;;
  k <- attr kernel_YX ;;
  vk <- lift (matmul (transpose v) k) ;;
  u <- attr U ;;
  vku <- lift (matmul vk u) ;;
  k' <- attr kernel_YX ;;
  n <- lift (nd_len k') ;;
  modify (set_A_v (true_divide vku n)) ;;;
  vb <- gets verbose ;;
  when vb (emit (PrintLine "kernel regression complete")).

(** *** [fit] *)

Definition fit (data_arg : option pyobj) (lamb_arg : option F) : M unit :=
  self_data <- gets data ;;
  let data := match data_arg with None => self_data | Some d => d end in
  self_lamb <- gets lamb ;;
  let lamb := match lamb_arg with None => self_lamb | Some l => l end in
  compute_hankel data ;;;
  compute_kernel_dmd (Some lamb).

(** *** [predict] *)

(** [super().predict(d)] *)
Definition call_predict (d : pyobj) : M farray :=
  emit (CallPredict d) ;;;
  b <- gets super ;;
  lift (nystroem_predict b d).

(** [a.shape[i]] *)
Definition shape_at (a : ndarray) (i : nat) : result nat :=
  match nth_error (shape a) i with
  | Some d => Ok d
  | None => Raise IndexError
  end.

(** The conversions at the head of [predict]: a tensor to its numpy array,
    a list through [np.array].  A context dataset is not an array, and what
    numpy and the library make of one in lines 144-156 is not modelled: the
    branch is closed with [AttributeError].  The theorems on what [predict]
    returns take test data with [as_array test_data = Ok a]. *)
Definition as_array (test_data : pyobj) : result ndarray :=
  match test_data with
  | Tensor a => Ok a
  | TrajList l => np_array l
  | Array a => Ok a
  | ContextsObj _ => Raise AttributeError
  end.

(** The statements of [predict] after the guard on [reseed]; [reseed] is the
    local variable, which no statement reads. *)
Definition predict_from (test_data : pyobj) (reseed : nat) : M farray :=
  test_data <- lift (as_array test_data) ;;
  let isdim2 := ndim test_data =? 2 in
  let test_data := if isdim2 then newaxis test_data else test_data in
  let pred_data := zeros (float64 zero) (shape test_data) in
  n <- gets n_delays ;;
  head <- lift (slice_axis1 test_data 0 (Some n)) ;;
  pred_data <- lift (set_slice_axis1 pred_data 0 (Some n) (astype float64 head)) ;;
  compute_hankel (Array test_data) ;;;
  d <- gets data ;;
  pred <- call_predict d ;;
  k <- lift (shape_at test_data 0) ;;
  t <- lift (shape_at test_data 1) ;;
  n' <- gets n_delays ;;
  w <- lift (shape_at test_data 2) ;;
  pred <- lift (reshape3 pred k (Z.of_nat t - Z.of_nat n') w) ;;
  n'' <- gets n_delays ;;
  pred_data <- lift (set_slice_axis1 pred_data n'' None pred) ;;
  ret (squeeze pred_data).

Definition predict (test_data : option pyobj) (reseed : option nat) : M farray :=
  self_data <- gets data ;;
  let test_data := match test_data with None => self_data | Some d => d end in
  reseed <- match reseed with
            | None => ret 1
            | Some _ => raise NotImplementedError
            end ;;
  predict_from test_data reseed.

End KernelDMD.

Arguments Tensor {F ContextMeta} a.
Arguments Array {F ContextMeta} a.
Arguments TrajList {F ContextMeta} l.
Arguments ContextsObj {F ContextMeta} c.
Arguments CallTrajToContexts {F ContextMeta} traj cwl lag.
Arguments CallTrajToContextsOf {F ContextMeta} x cwl lag.
Arguments CallFit {F ContextMeta} d.
Arguments CallPredict {F ContextMeta} d.
Arguments PrintLine {F ContextMeta} msg.

(** ** Vocabulary of the specification *)

Section Vocabulary.

Variable F : Type.
Variable ContextMeta : Type.
Variable NystroemRest : Type.

Local Abbreviation ndarray := (ndarray F).
Local Abbreviation Contexts := (Contexts F ContextMeta).
Local Abbreviation pyobj := (pyobj F ContextMeta).
Local Abbreviation KernelDMD := (KernelDMD F ContextMeta NystroemRest).

Variable traj_to_contexts : ndarray -> nat -> nat -> result Contexts.

(** The object as [__init__] leaves it: the window is one sample longer
    than the number of delays. *)
Definition consistent (s : KernelDMD) : Prop :=
  context_window_len s = n_delays s + 1.

(** The settings of an object: the attributes [__init__] fixes and no
    method is meant to change. *)
Definition same_settings (s s' : KernelDMD) : Prop :=
  n_delays s' = n_delays s /\
  context_window_len s' = context_window_len s /\
  delay_interval s' = delay_interval s /\
  verbose s' = verbose s /\
  lamb s' = lamb s.

(** A computation that leaves the settings as they are, whatever its
    outcome. *)
Definition keeps_settings {A} (m : M F ContextMeta NystroemRest A) : Prop :=
  forall s, same_settings s (final (m s)).

(** The sub-arrays [a[0]], ..., [a[k-1]] of an array with [k] as its first
    axis. *)
Definition items (a : ndarray) : list ndarray :=
  match shape a with
  | [] => []
  | k :: sh =>
      map (fun i => mk_nd sh (firstn (size_of sh) (skipn (i * size_of sh) (elems a))))
        (seq 0 k)
  end.

(** The trajectories an input stands for: a 2-D array is one trajectory, an
    array of higher rank the trajectories along its first axis, a list its
    members; a tensor is read as its numpy conversion. *)
Definition trajectories (trajs : pyobj) : list ndarray :=
  match trajs with
  | Tensor a | Array a => if ndim a =? 2 then [a] else items a
  | TrajList l => l
  | ContextsObj _ => []
  end.

(** What [compute_hankel] indexes after its two conversions. *)
Definition normalised (trajs : pyobj) : pyobj :=
  let trajs := match trajs with Tensor a => Array a | _ => trajs end in
  match trajs with
  | Array a => if ndim a =? 2 then Array (newaxis a) else trajs
  | _ => trajs
  end.

(** The array [predict] works on: the converted test data, with a leading
    axis added when it has two axes. *)
Definition batch_of (a0 : ndarray) : ndarray :=
  if ndim a0 =? 2 then newaxis a0 else a0.

(** The inputs named by the documentation: a tensor or array with two or
    three axes, or a list of 2-D arrays. *)
Definition documented_input (trajs : pyobj) : Prop :=
  match trajs with
  | Tensor a | Array a => (ndim a = 2 \/ ndim a = 3) /\ well_formed a
  | TrajList l => Forall (fun a => ndim a = 2 /\ well_formed a) l
  | ContextsObj _ => False
  end.

(** The length of the first axis (zero for a 0-d array). *)
Definition lead (a : ndarray) : nat := hd 0 (shape a).

(** [np.concatenate(l, axis=0)] as the specification words it: the arrays
    of [a :: l] one after the other along the first axis (a single array is
    its own concatenation). *)
Definition concat_axis0 (a : ndarray) (l : list ndarray) : ndarray :=
  match l with
  | [] => a
  | _ :: _ =>
      mk_nd (list_sum (map lead (a :: l)) :: tl (shape a))
            (concat (map (@elems F) (a :: l)))
  end.

(** The arrays of [l] can be concatenated after [a]: at least one axis
    each, and the axes after the first agree. *)
Definition stackable (a : ndarray) (l : list ndarray) : Prop :=
  l = [] \/ Forall (fun b => shape b <> [] /\ tl (shape b) = tl (shape a)) (a :: l).

(** Sample [t] of a 2-D array (row [t] of [n] elements), and the samples of
    an array whose last axis has [n] elements. *)
Definition row (n : nat) (es : list F) (t : nat) : list F :=
  firstn n (skipn (t * n) es).

Definition samples (a : ndarray) : list (list F) :=
  match shape a with
  | [t; n] => chunks n t (elems a)
  | _ => []
  end.

(** The context windows of a 3-D array of shape (w, l, n): [w] windows of
    [l] samples of [n] elements. *)
Definition windows (a : ndarray) : list (list (list F)) :=
  match shape a with
  | [w; l; n] => map (chunks n l) (chunks (l * n) w (elems a))
  | _ => []
  end.

(** Every sample of every window of the contexts [c] is a sample of the
    trajectory [traj]. *)
Definition drawn_from (traj : ndarray) (c : Contexts) : Prop :=
  forall win, In win (windows (ctx_data c)) ->
  forall x, In x win -> In x (samples traj).

(** The contexts [c] the library built for [traj] with window [cwl] and lag
    [lag]: a well-formed array of windows of [l] samples of [n] elements,
    drawn from [traj]. *)
Definition embeds (cwl lag l n : nat) (traj : ndarray) (c : Contexts) : Prop :=
  traj_to_contexts traj cwl lag = Ok c /\
  (exists w, shape (ctx_data c) = [w; l; n]) /\
  well_formed (ctx_data c) /\
  drawn_from traj c.

(** The loop of [compute_hankel] read as a function of the trajectories
    after the first: each is embedded and its windows are appended to the
    data of the first contexts object. *)
Fixpoint hankel_fold (cwl lag : nat) (ts : list ndarray) (d : Contexts)
  : result Contexts :=
  match ts with
  | [] => Ok d
  | t :: ts' =>
      result_bind (traj_to_contexts t cwl lag) (fun c =>
      result_bind (concatenate (ctx_data d) (ctx_data c)) (fun dd =>
      hankel_fold cwl lag ts' (set_ctx_data d dd)))
  end.

(** The roll-out the specification describes: after the samples in [acc],
    each further sample is the one-step operator [step] applied to the [n]
    samples generated before it, [steps] times. *)
Fixpoint rollout (step : list (list F) -> list F) (n steps : nat)
    (acc : list (list F)) : list (list F) :=
  match steps with
  | 0 => acc
  | S k => rollout step n k (acc ++ [step (skipn (List.length acc - n) acc)])
  end.

(** Being a roll-out, for one trajectory with samples [x] and predictions
    [p]: the predictions are the roll-out of [step] from the first [n]
    samples of [x]. *)
Definition rolled_out (step : list (list F) -> list F) (n : nat)
    (x p : list (list F)) : Prop :=
  p = rollout step n (List.length x - n) (firstn n x).

(** How often the inherited [fit] and [predict] are called in a trace. *)
Definition fit_calls (tr : list (event F ContextMeta)) : nat :=
  List.length (filter (fun ev => match ev with CallFit _ => true | _ => false end) tr).

Definition predict_calls (tr : list (event F ContextMeta)) : nat :=
  List.length (filter (fun ev => match ev with CallPredict _ => true | _ => false end) tr).

(** Two objects that agree on every attribute but [self.data]. *)
Definition same_but_data (s1 s2 : KernelDMD) : Prop :=
  s1 = set_data (data s1) s2.

(** A computation that neither reads [self.data] nor changes the object:
    on two objects that differ in [self.data] only it has one outcome and
    makes the same calls. *)
Definition blind_to_data {A} (m : M F ContextMeta NystroemRest A) : Prop :=
  forall s1 s2, same_but_data s1 s2 ->
    outcome (m s1) = outcome (m s2) /\
    calls (m s1) = calls (m s2) /\
    final (m s1) = s1 /\ final (m s2) = s2.

(** A computation that does not depend on what [self.data] holds when it
    starts: on two objects that differ in [self.data] only it has one
    outcome and makes the same calls; either it has assigned [self.data] and
    leaves the same object in both runs, or it has changed nothing; and it
    does not return without having assigned [self.data]. *)
Definition replaces_data {A} (m : M F ContextMeta NystroemRest A) : Prop :=
  forall s1 s2, same_but_data s1 s2 ->
    outcome (m s1) = outcome (m s2) /\
    calls (m s1) = calls (m s2) /\
    (final (m s1) = final (m s2) \/ (final (m s1) = s1 /\ final (m s2) = s2)) /\
    (forall x, outcome (m s2) = Ok x -> final (m s1) = final (m s2)).

(** A computation whose only change to the object, whatever its outcome, is
    to [self.data]. *)
Definition changes_data_only {A} (m : M F ContextMeta NystroemRest A) : Prop :=
  forall s, same_but_data (final (m s)) s.

(** A computation that makes at most [nf] calls of the inherited [fit] and
    [np] of the inherited [predict], whatever its outcome. *)
Definition makes_at_most (nf np : nat) {A} (m : M F ContextMeta NystroemRest A) : Prop :=
  forall s, fit_calls (calls (m s)) <= nf /\ predict_calls (calls (m s)) <= np.

(** What a method has printed, in order. *)
Definition printed (tr : list (event F ContextMeta)) : list string :=
  flat_map (fun ev => match ev with PrintLine msg => [msg] | _ => [] end) tr.

(** A computation that prints nothing. *)
Definition silent {A} (m : M F ContextMeta NystroemRest A) : Prop :=
  forall s, printed (calls (m s)) = [].

(** A computation that prints [msg], once, when it returns and [verbose] is
    set, and nothing otherwise. *)
Definition announces (msg : string) {A} (m : M F ContextMeta NystroemRest A) : Prop :=
  forall s, printed (calls (m s))
            = match outcome (m s) with
              | Ok _ => if verbose s then [msg] else []
              | Raise _ => []
              end.

End Vocabulary.

(** ** Sequences of method calls

    An object in use: methods are called on it one after the other, and the
    next call finds the object as the previous one left it, whether that one
    returned or raised. *)

Section Sessions.

Variable F : Type.
Variable zero : F.
Variable R : Type.
Variable float64 : F -> R.
Variable ContextMeta : Type.
Variable NystroemRest : Type.

Local Abbreviation farray := (ndarray R).
Local Abbreviation ndarray := (ndarray F).
Local Abbreviation Contexts := (Contexts F ContextMeta).
Local Abbreviation pyobj := (pyobj F ContextMeta).
Local Abbreviation NystroemKernel := (NystroemKernel F NystroemRest).
Local Abbreviation KernelDMD := (KernelDMD F ContextMeta NystroemRest).

Variable traj_to_contexts : ndarray -> nat -> nat -> result Contexts.
Variable dataset_getitem : Contexts -> nat -> result pyobj.
Variable dataset_len : Contexts -> result nat.
Variable traj_to_contexts_of : pyobj -> nat -> nat -> result Contexts.
Variable nystroem_fit : NystroemKernel -> pyobj -> result unit * NystroemKernel.
Variable nystroem_predict : NystroemKernel -> pyobj -> result farray.
Variable matmul : ndarray -> ndarray -> result ndarray.
Variable transpose : ndarray -> ndarray.
Variable true_divide : ndarray -> nat -> ndarray.

(** A call of one of the four methods, with its arguments. *)
Inductive method_call : Type :=
| ComputeHankel (trajs : pyobj)
| ComputeKernelDMD (lamb : option F)
| Fit (data : option pyobj) (lamb : option F)
| Predict (test_data : option pyobj) (reseed : option nat).

(** The object after the call [c]. *)
Definition object_after (c : method_call) (s : KernelDMD) : KernelDMD :=
  match c with
  | ComputeHankel trajs =>
      final (compute_hankel traj_to_contexts dataset_getitem dataset_len
               traj_to_contexts_of trajs s)
  | ComputeKernelDMD lamb =>
      final (compute_kernel_dmd nystroem_fit matmul transpose true_divide lamb s)
  | Fit data lamb =>
      final (fit traj_to_contexts dataset_getitem dataset_len traj_to_contexts_of
               nystroem_fit matmul transpose true_divide data lamb s)
  | Predict test_data reseed =>
      final (predict zero float64 traj_to_contexts dataset_getitem dataset_len
               traj_to_contexts_of nystroem_predict test_data reseed s)
  end.

(** The object after the calls [cs], in order. *)
Definition session (cs : list method_call) (s : KernelDMD) : KernelDMD :=
  fold_left (fun s c => object_after c s) cs s.

End Sessions.

(** ** The methods in parts

    The statements of [compute_hankel] and [predict] that follow the
    conversions of their argument, each as a computation of its own, for
    saying what the conversions are followed by; and the two sentences of
    the specification that name a computation, as it words them. *)

Section Parts.

Variable F : Type.
Variable zero : F.
Variable R : Type.
Variable float64 : F -> R.
Variable ContextMeta : Type.
Variable NystroemRest : Type.

Local Abbreviation farray := (ndarray R).
Local Abbreviation ndarray := (ndarray F).
Local Abbreviation Contexts := (Contexts F ContextMeta).
Local Abbreviation pyobj := (pyobj F ContextMeta).
Local Abbreviation NystroemKernel := (NystroemKernel F NystroemRest).
Local Abbreviation KernelDMD := (KernelDMD F ContextMeta NystroemRest).
Local Abbreviation M := (M F ContextMeta NystroemRest).

Local Notation "x <- m ;; k" := (bind m (fun x => k))
  (at level 61, m at next level, right associativity).
Local Notation "m ;;; k" := (bind m (fun _ => k))
  (at level 61, right associativity).

Variable traj_to_contexts : ndarray -> nat -> nat -> result Contexts.
Variable dataset_getitem : Contexts -> nat -> result pyobj.
Variable dataset_len : Contexts -> result nat.
Variable traj_to_contexts_of : pyobj -> nat -> nat -> result Contexts.
Variable nystroem_predict : NystroemKernel -> pyobj -> result farray.
Variable matmul : ndarray -> ndarray -> result ndarray.
Variable transpose : ndarray -> ndarray.
Variable true_divide : ndarray -> nat -> ndarray.

(** [compute_hankel] from [data = traj_to_contexts(trajs[0], ...)] on, for
    [trajs] as the conversions have left it. *)
Definition hankel_body (trajs : pyobj) : M unit :=
  traj <- lift (getitem dataset_getitem trajs 0) ;;
  cwl <- gets (@context_window_len F ContextMeta NystroemRest) ;;
  lag <- gets (@delay_interval F ContextMeta NystroemRest) ;;
  data <- call_traj_to_contexts traj_to_contexts traj_to_contexts_of traj cwl lag ;;
  n <- lift (len dataset_len trajs) ;;
  data <- hankel_loop traj_to_contexts dataset_getitem traj_to_contexts_of
            trajs (seq 1 (n - 1)) data ;;
  modify (set_data (ContextsObj data)) ;;;
  v <- gets (@verbose F ContextMeta NystroemRest) ;;
  when v (emit (PrintLine "Hankel matrix computed")).

(** [predict] from [pred_data = np.zeros(test_data.shape)] on, for the
    array [test_data] that the conversions have left. *)
Definition predict_body (test_data : ndarray) : M farray :=
  let pred_data := zeros (float64 zero) (shape test_data) in
  n <- gets (@n_delays F ContextMeta NystroemRest) ;;
  head <- lift (slice_axis1 test_data 0 (Some n)) ;;
  pred_data <- lift (set_slice_axis1 pred_data 0 (Some n) (astype float64 head)) ;;
  compute_hankel traj_to_contexts dataset_getitem dataset_len traj_to_contexts_of
    (Array test_data) ;;;
  d <- gets (@data F ContextMeta NystroemRest) ;;
  pred <- call_predict nystroem_predict d ;;
  k <- lift (shape_at test_data 0) ;;
  t <- lift (shape_at test_data 1) ;;
  n' <- gets (@n_delays F ContextMeta NystroemRest) ;;
  w <- lift (shape_at test_data 2) ;;
  pred <- lift (reshape3 pred k (Z.of_nat t - Z.of_nat n') w) ;;
  n'' <- gets (@n_delays F ContextMeta NystroemRest) ;;
  pred_data <- lift (set_slice_axis1 pred_data n'' None pred) ;;
  ret (squeeze pred_data).

(** [predict] as the specification has it: on an array, the shape
    normalisation and then the prediction, and no other handling of what it
    is given. *)
Definition predict_as_specified (x : ndarray) (reseed : option nat) : M farray :=
  predict_body (batch_of x).

(** [A_v] as the specification gives it:
    [V.T @ kernel_YX @ U / len(kernel_YX)]. *)
Definition A_v_as_specified (v k u : ndarray) : result ndarray :=
  result_bind (matmul (transpose v) k) (fun vk =>
  result_bind (matmul vk u) (fun vku =>
  result_bind (nd_len k) (fun n =>
  Ok (true_divide vku n)))).

End Parts.

(** ** A reference instance of the library

    A small executable stand-in for the library, used to run the methods on
    concrete inputs: integer scalars, the sliding-window construction of
    [traj_to_contexts] as kooplearn documents it (a window spans
    [1 + (context_window_len - 1) * time_lag] samples and keeps every
    [time_lag]-th one, so a trajectory of [t] samples gives
    [t - (context_window_len - 1) * time_lag] windows), and a toy model whose
    prediction for a window is the last sample of its lookback, plus one. *)

Module Reference.

Definition scalar : Type := Z.

(** The shape recorded when the dataset is built. *)
Definition meta : Type := list nat.

(** The shape the library gives a trajectory before cutting windows: a
    scalar becomes 1 x 1, a 1-D series gets a feature axis of length one. *)
Definition trajectory_shape (sh : list nat) : list nat :=
  match sh with
  | [] => [1; 1]
  | [t] => [t; 1]
  | _ => sh
  end.

Definition traj_to_contexts (traj : ndarray scalar) (cwl lag : nat)
  : result (Contexts scalar meta) :=
  match trajectory_shape (shape traj) with
  | [] => Raise ValueError
  | t :: sh =>
      let span := 1 + (cwl - 1) * lag in
      if (cwl <? 1) || (lag <? 1) || (t <? span) then Raise ValueError
      else
        let inner := size_of sh in
        let w := t - span + 1 in
        let rows := chunks inner t (elems traj) in
        let window i := concat (map (fun j => nth (i + j * lag) rows []) (seq 0 cwl)) in
        Ok (mk_contexts
              (mk_nd (w :: cwl :: sh) (concat (map window (seq 0 w))))
              (w :: cwl :: sh))
  end.

(** Matrices as lists of rows. *)
Definition rows_of (a : ndarray scalar) : list (list scalar) :=
  match shape a with
  | [r; c] => chunks c r (elems a)
  | _ => []
  end.

Definition column (j : nat) (m : list (list scalar)) : list scalar :=
  map (fun r => nth j r 0%Z) m.

Definition dot (u v : list scalar) : scalar :=
  fold_right Z.add 0%Z (map (fun p => (fst p * snd p)%Z) (combine u v)).

Definition transpose (a : ndarray scalar) : ndarray scalar :=
  match shape a with
  | [r; c] => mk_nd [c; r] (concat (map (fun j => column j (rows_of a)) (seq 0 c)))
  | _ => mk_nd (rev (shape a)) (elems a)
  end.

Definition matmul (a b : ndarray scalar) : result (ndarray scalar) :=
  match shape a, shape b with
  | [r; c], [c'; q] =>
      if c =? c'
      then Ok (mk_nd [r; q]
                 (concat (map (fun u => map (fun j => dot u (column j (rows_of b))) (seq 0 q))
                            (rows_of a))))
      else Raise ValueError
  | _, _ => Raise ValueError
  end.

Definition true_divide (a : ndarray scalar) (n : nat) : ndarray scalar :=
  mk_nd (shape a) (map (fun x => (x / Z.of_nat n)%Z) (elems a)).

(** The conversion of an integer to float64: the nearest integer that a
    double, with its 53 significant bits, represents, ties going to the even
    one; every integer up to 2^53 in absolute value is kept. *)
Definition float64 (z : scalar) : scalar :=
  let m := Z.abs z in
  let e := (Z.log2 m - 52)%Z in
  if (e <=? 0)%Z then z
  else
    let q := Z.shiftr m e in
    let r := Z.land m (Z.ones e) in
    let half := Z.shiftl 1 (e - 1) in
    let q' := if (half <? r)%Z || ((r =? half)%Z && Z.odd q) then (q + 1)%Z else q in
    (Z.sgn z * Z.shiftl q' e)%Z.

(** Items and length of a context dataset: an item is the dataset of one
    window.  The toy [traj_to_contexts] refuses what is not an array. *)
Definition dataset_getitem (c : Contexts scalar meta) (i : nat)
  : result (pyobj scalar meta) :=
  match nd_item (ctx_data c) i with
  | Ok w => Ok (ContextsObj (mk_contexts (newaxis w) (ctx_meta c)))
  | Raise e => Raise e
  end.

Definition dataset_len (c : Contexts scalar meta) : result nat := nd_len (ctx_data c).

Definition traj_to_contexts_of (x : pyobj scalar meta) (cwl lag : nat)
  : result (Contexts scalar meta) := Raise TypeError.

Definition rest : Type := unit.

Definition nystroem_init (kernel : unit) (reduced_rank : bool) (rank : nat)
    (reg : option scalar) (solver : unit) (centers : unit)
  : NystroemKernel scalar rest :=
  mk_nystroem rank reg None None None tt.

(** The toy [fit]: it accepts a context dataset and sets 1 x 1 factors. *)
Definition nystroem_fit (b : NystroemKernel scalar rest) (d : pyobj scalar meta)
  : result unit * NystroemKernel scalar rest :=
  match d with
  | ContextsObj _ =>
      (Ok tt,
       mk_nystroem (rank b) (tikhonov_reg b)
         (Some (mk_nd [1; 1] [2%Z])) (Some (mk_nd [1; 1] [3%Z]))
         (Some (mk_nd [1; 1] [5%Z])) (nk_rest b))
  | _ => (Raise TypeError, b)
  end.

(** The toy [predict], for a fitted model: one prediction per window, the
    last sample of the window's lookback (all but its final sample) with one
    added to each entry. *)
Definition nystroem_predict (b : NystroemKernel scalar rest) (d : pyobj scalar meta)
  : result (ndarray scalar) :=
  match U b, d with
  | None, _ => Raise AttributeError
  | Some _, ContextsObj c =>
      match shape (ctx_data c) with
      | w :: l :: sh =>
          let inner := size_of sh in
          if l <? 2 then Raise ValueError
          else Ok (mk_nd (w :: 1 :: sh)
                     (concat (map (fun win => map Z.succ (row inner win (l - 2)))
                                (chunks (l * inner) w (elems (ctx_data c))))))
      | _ => Raise ValueError
      end
  | Some _, _ => Raise TypeError
  end.

(** A model object over the reference library. *)
Definition model (n_delays delay_interval : nat) (verbose : bool)
  : KernelDMD scalar meta rest :=
  init 0%Z nystroem_init (Array (mk_nd [0; 1] [])) n_delays tt tt delay_interval
    10 true None verbose tt.

(** The one-step operator of the toy model: the last of the samples it is
    given, plus one. *)
Definition toy_step (lookback : list (list scalar)) : list scalar :=
  map Z.succ (last lookback []).

(** Two trajectories of dimension 2, with 3 and 4 samples. *)
Definition traj_a : ndarray scalar := mk_nd [3; 2] [1; 2; 3; 4; 5; 6]%Z.
Definition traj_b : ndarray scalar :=
  mk_nd [4; 2] [11; 12; 13; 14; 15; 16; 17; 18]%Z.

(** [traj_a] as a batch of one trajectory. *)
Definition batch_a : ndarray scalar := mk_nd [1; 3; 2] [1; 2; 3; 4; 5; 6]%Z.

(** Scalar series. *)
Definition series_057 : ndarray scalar := mk_nd [3; 1] [0; 5; 7]%Z.
Definition series_097 : ndarray scalar := mk_nd [3; 1] [0; 9; 7]%Z.
Definition series_6 : ndarray scalar := mk_nd [6; 1] [0; 1; 2; 3; 4; 5]%Z.
Definition series_odd : ndarray scalar := mk_nd [6; 1] [0; 5; 7; 9; 11; 13]%Z.

(** A series of integers whose first sample, 2^53 + 1, no double
    represents. *)
Definition series_big : ndarray scalar := mk_nd [3; 1] [9007199254740993; 5; 7]%Z.

Definition run_compute_hankel :=
  compute_hankel (NystroemRest := rest) traj_to_contexts dataset_getitem dataset_len
    traj_to_contexts_of.

Definition run_fit :=
  fit traj_to_contexts dataset_getitem dataset_len traj_to_contexts_of
    nystroem_fit matmul transpose true_divide.

Definition run_predict :=
  predict 0%Z float64 traj_to_contexts dataset_getitem dataset_len traj_to_contexts_of
    nystroem_predict.

Definition run_predict_as_specified :=
  predict_as_specified 0%Z float64 traj_to_contexts dataset_getitem dataset_len
    traj_to_contexts_of nystroem_predict.

(** The toy model fitted on the two trajectories, with one delay. *)
Definition fitted : KernelDMD scalar meta rest :=
  final (run_fit (Some (TrajList [traj_a; traj_b])) None (model 1 1 false)).

(** The toy model with two delays fitted on the series of six samples, for
    a given delay interval. *)
Definition fitted_two_delays (delay_interval : nat) : KernelDMD scalar meta rest :=
  final (run_fit (Some (Array series_6)) None (model 2 delay_interval false)).

End Reference.

(** * Properties *)

(** ** Blocks of a list *)

Section Chunks.

Variable A : Type.
Implicit Types (l : list A) (bs : list (list A)).

Lemma chunks_length n k l : List.length (chunks n k l) = k.
Proof. revert l; induction k; simpl; intros; [reflexivity | now rewrite IHk]. Qed.

Lemma chunks_app n k1 k2 l1 l2 :
  List.length l1 = k1 * n ->
  chunks n (k1 + k2) (l1 ++ l2) = chunks n k1 l1 ++ chunks n k2 l2.
Proof.
  revert l1; induction k1 as [|k1 IH]; simpl; intros l1 Hl.
  - apply length_zero_iff_nil in Hl; subst; reflexivity.
  - rewrite firstn_app, skipn_app.
    assert (Hn : n <= List.length l1) by lia.
    replace (n - List.length l1) with 0 by lia.
    simpl; rewrite app_nil_r; f_equal.
    apply IH. rewrite length_skipn; lia.
Qed.

Lemma chunks_concat n bs :
  Forall (fun b => List.length b = n) bs ->
  chunks n (List.length bs) (concat bs) = bs.
Proof.
  induction 1 as [|b bs Hb _ IH]; simpl; [reflexivity|].
  rewrite firstn_app, skipn_app, Hb, Nat.sub_diag; simpl.
  rewrite firstn_all2, skipn_all2 by lia.
  rewrite app_nil_r; simpl; now rewrite IH.
Qed.

Lemma concat_chunks n k l :
  List.length l = k * n -> concat (chunks n k l) = l.
Proof.
  revert l; induction k as [|k IH]; simpl; intros l Hl.
  - apply length_zero_iff_nil in Hl; now subst.
  - rewrite IH by (rewrite length_skipn; lia). apply firstn_skipn.
Qed.

Lemma chunks_Forall_length n k l :
  List.length l = k * n -> Forall (fun b => List.length b = n) (chunks n k l).
Proof.
  revert l; induction k as [|k IH]; simpl; intros l Hl; constructor.
  - rewrite length_firstn; lia.
  - apply IH; rewrite length_skipn; lia.
Qed.

Lemma chunks_concat_len n k bs :
  List.length bs = k -> Forall (fun b => List.length b = n) bs ->
  chunks n k (concat bs) = bs.
Proof. intros <-. apply chunks_concat. Qed.

Lemma concat_length_blocks n bs :
  Forall (fun b => List.length b = n) bs ->
  List.length (concat bs) = List.length bs * n.
Proof.
  induction 1 as [|b bs Hb _ IH]; simpl; [reflexivity|].
  rewrite length_app, IH, Hb; lia.
Qed.

Lemma skipn_concat_blocks n bs : forall k r,
  Forall (fun b => List.length b = n) bs -> k < List.length bs -> r <= n ->
  skipn (k * n + r) (concat bs) = skipn r (nth k bs []) ++ concat (skipn (S k) bs).
Proof.
  induction bs as [|b bs IH]; intros k r HF Hk Hr; simpl in Hk; [lia|].
  apply Forall_cons_iff in HF as [Hb HF].
  destruct k as [|k]; simpl.
  - rewrite skipn_app. replace (r - List.length b) with 0 by lia. reflexivity.
  - rewrite skipn_app, skipn_all2 by lia. simpl.
    replace (n + k * n + r - List.length b) with (k * n + r) by lia.
    apply IH; auto; lia.
Qed.

Lemma nth_Forall_length n bs k :
  Forall (fun b => List.length b = n) bs -> k < List.length bs ->
  List.length (nth k bs []) = n.
Proof.
  intros HF Hk. rewrite Forall_forall in HF. apply HF. now apply nth_In.
Qed.

(** An element of a block, read through the concatenation of the blocks. *)
Lemma firstn_skipn_concat_blocks w n bs k r :
  Forall (fun b => List.length b = n) bs -> k < List.length bs -> r + w <= n ->
  firstn w (skipn (k * n + r) (concat bs)) = firstn w (skipn r (nth k bs [])).
Proof.
  intros HF Hk Hr.
  rewrite skipn_concat_blocks by (auto; lia).
  rewrite firstn_app.
  pose proof (nth_Forall_length HF Hk) as Hl.
  rewrite length_skipn, Hl.
  replace (w - (n - r)) with 0 by lia. simpl. apply app_nil_r.
Qed.

End Chunks.

Lemma shape_eqb_eq (a b : list nat) : shape_eqb a b = true <-> a = b.
Proof.
  revert b; induction a as [|x a IH]; destruct b as [|y b]; simpl;
    try (split; [discriminate | congruence]); [tauto|].
  rewrite andb_true_iff, Nat.eqb_eq, IH. split; [intros []; congruence|].
  intros E; injection E; auto.
Qed.

Lemma shape_eqb_refl (a : list nat) : shape_eqb a a = true.
Proof. now apply shape_eqb_eq. Qed.

Lemma chunks_map (A B : Type) (f : A -> B) n k (l : list A) :
  chunks n k (map f l) = map (map f) (chunks n k l).
Proof.
  revert l; induction k as [|k IH]; intros l; simpl; [reflexivity|].
  now rewrite firstn_map, skipn_map, IH.
Qed.

(** ** The object [__init__] builds *)

(** [__init__] keeps its arguments, sets the window to [n_delays + 1] and
    reads a missing [lamb] as zero. *)
Lemma init_attributes (F : Type) (zero : F) (ContextMeta NystroemRest : Type)
    (Kernel Solver Centers : Type)
    (nystroem_init : Kernel -> bool -> nat -> option F -> Solver -> Centers ->
                     NystroemKernel F NystroemRest)
    (data0 : pyobj F ContextMeta) (n_delays0 : nat) (kernel : Kernel)
    (num_centers : Centers) (delay_interval0 rank0 : nat) (reduced_rank_reg : bool)
    (lamb0 : option F) (verbose0 : bool) (svd_solver : Solver) :
  let s := init zero nystroem_init data0 n_delays0 kernel num_centers delay_interval0
             rank0 reduced_rank_reg lamb0 verbose0 svd_solver in
  consistent s /\
  n_delays s = n_delays0 /\ delay_interval s = delay_interval0 /\
  lamb s = match lamb0 with None => zero | Some l => l end /\
  data s = data0 /\ rank (super s) = rank0 /\ A_v s = None.
Proof. repeat split. Qed.

(** ** The methods over an arbitrary library *)

Section Properties.

Variable F : Type.
Variable zero : F.
Variable R : Type.
Variable float64 : F -> R.
Variable ContextMeta : Type.
Variable NystroemRest : Type.

Local Abbreviation farray := (ndarray R).
Local Abbreviation ndarray := (ndarray F).
Local Abbreviation Contexts := (Contexts F ContextMeta).
Local Abbreviation pyobj := (pyobj F ContextMeta).
Local Abbreviation NystroemKernel := (NystroemKernel F NystroemRest).
Local Abbreviation KernelDMD := (KernelDMD F ContextMeta NystroemRest).

Variable traj_to_contexts : ndarray -> nat -> nat -> result Contexts.
Variable dataset_getitem : Contexts -> nat -> result pyobj.
Variable dataset_len : Contexts -> result nat.
Variable traj_to_contexts_of : pyobj -> nat -> nat -> result Contexts.
Variable nystroem_fit : NystroemKernel -> pyobj -> result unit * NystroemKernel.
Variable nystroem_predict : NystroemKernel -> pyobj -> result farray.
Variable matmul : ndarray -> ndarray -> result ndarray.
Variable transpose : ndarray -> ndarray.
Variable true_divide : ndarray -> nat -> ndarray.

Local Abbreviation getitem := (getitem dataset_getitem).
Local Abbreviation len := (len dataset_len).
Local Abbreviation call_traj_to_contexts :=
  (call_traj_to_contexts (NystroemRest := NystroemRest) traj_to_contexts
     traj_to_contexts_of).
Local Abbreviation compute_hankel :=
  (compute_hankel (NystroemRest := NystroemRest) traj_to_contexts dataset_getitem
     dataset_len traj_to_contexts_of).
Local Abbreviation hankel_loop :=
  (hankel_loop (NystroemRest := NystroemRest) traj_to_contexts dataset_getitem
     traj_to_contexts_of).
Local Abbreviation hankel_fold := (hankel_fold traj_to_contexts).
Local Abbreviation compute_kernel_dmd :=
  (compute_kernel_dmd (ContextMeta := ContextMeta) nystroem_fit matmul transpose true_divide).
Local Abbreviation fit :=
  (fit traj_to_contexts dataset_getitem dataset_len traj_to_contexts_of
     nystroem_fit matmul transpose true_divide).
Local Abbreviation predict_from :=
  (predict_from zero float64 traj_to_contexts dataset_getitem dataset_len
     traj_to_contexts_of nystroem_predict).
Local Abbreviation predict :=
  (predict zero float64 traj_to_contexts dataset_getitem dataset_len
     traj_to_contexts_of nystroem_predict).
Local Abbreviation hankel_body :=
  (hankel_body (NystroemRest := NystroemRest) traj_to_contexts dataset_getitem
     dataset_len traj_to_contexts_of).
Local Abbreviation predict_body :=
  (predict_body zero float64 traj_to_contexts dataset_getitem dataset_len
     traj_to_contexts_of nystroem_predict).
Local Abbreviation predict_as_specified :=
  (predict_as_specified zero float64 traj_to_contexts dataset_getitem dataset_len
     traj_to_contexts_of nystroem_predict).
Local Abbreviation A_v_as_specified := (A_v_as_specified matmul transpose true_divide).

Implicit Types (s : KernelDMD) (a : ndarray) (c : Contexts) (trajs : pyobj).

(** *** Running a computation *)

Ltac run_step :=
  cbv beta iota zeta delta [bind lift gets emit modify when ret raise
                       call_traj_to_contexts call_fit call_predict attr
                       outcome final calls].

Lemma run_eta A (r : run F ContextMeta NystroemRest A) :
  r = mk_run (outcome r) (final r) (calls r).
Proof. now destruct r. Qed.

Lemma bind_Raise A B (m : M F ContextMeta NystroemRest A)
    (k : A -> M F ContextMeta NystroemRest B) s e s' tr :
  m s = mk_run (Raise e) s' tr ->
  bind m k s = mk_run (Raise e) s' tr.
Proof. unfold bind; intros ->; reflexivity. Qed.

Lemma bind_lift_Ok A B (x : A) (k : A -> M F ContextMeta NystroemRest B) s :
  bind (lift (Ok x)) k s = k x s.
Proof. unfold bind, lift; simpl. now destruct (k x s). Qed.

Lemma bind_lift_Raise A B e (k : A -> M F ContextMeta NystroemRest B) s :
  bind (lift (Raise e)) k s = mk_run (Raise e) s [].
Proof. reflexivity. Qed.

Lemma bind_gets A B (f : KernelDMD -> A) (k : A -> M F ContextMeta NystroemRest B) s :
  bind (gets f) k s = k (f s) s.
Proof. unfold bind, gets; simpl. now destruct (k (f s) s). Qed.

Lemma bind_modify B (f : KernelDMD -> KernelDMD)
    (k : unit -> M F ContextMeta NystroemRest B) s :
  bind (modify f) k s = k tt (f s).
Proof. unfold bind, modify; simpl. now destruct (k tt (f s)). Qed.

Lemma bind_ret A B (x : A) (k : A -> M F ContextMeta NystroemRest B) s :
  bind (ret x) k s = k x s.
Proof. unfold bind, ret; simpl. now destruct (k x s). Qed.

Lemma bind_run_Ok A B (m : M F ContextMeta NystroemRest A)
    (k : A -> M F ContextMeta NystroemRest B) s x s' tr :
  m s = mk_run (Ok x) s' tr -> bind m k s = prepend tr (k x s').
Proof. unfold bind, prepend; intros ->; reflexivity. Qed.

Lemma bind_call_fit_Ok B d (k : unit -> M F ContextMeta NystroemRest B) s :
  fst (nystroem_fit (super s) d) = Ok tt ->
  bind (call_fit nystroem_fit d) k s
  = prepend [CallFit d] (k tt (set_super (snd (nystroem_fit (super s) d)) s)).
Proof. unfold call_fit, prepend. run_step. simpl. intros ->. reflexivity. Qed.

Lemma bind_call_fit_Raise B d (k : unit -> M F ContextMeta NystroemRest B) s e :
  fst (nystroem_fit (super s) d) = Raise e ->
  bind (call_fit nystroem_fit d) k s
  = mk_run (Raise e) (set_super (snd (nystroem_fit (super s) d)) s) [CallFit d].
Proof. unfold call_fit. run_step. simpl. intros ->. reflexivity. Qed.

Lemma bind_attr_Some B f x (k : ndarray -> M F ContextMeta NystroemRest B) s :
  f (super s) = Some x -> bind (attr f) k s = k x s.
Proof. unfold attr. run_step. intros ->. simpl. now destruct (k x s). Qed.

Lemma bind_attr_None B f (k : ndarray -> M F ContextMeta NystroemRest B) s :
  f (super s) = None -> bind (attr f) k s = mk_run (Raise AttributeError) s [].
Proof. unfold attr. run_step. intros ->. reflexivity. Qed.

Lemma bind_call_predict_Ok B d x (k : farray -> M F ContextMeta NystroemRest B) s :
  nystroem_predict (super s) d = Ok x ->
  bind (call_predict nystroem_predict d) k s = prepend [CallPredict d] (k x s).
Proof. unfold call_predict, prepend. run_step. simpl. intros ->. reflexivity. Qed.

Lemma bind_call_predict_Raise B d e (k : farray -> M F ContextMeta NystroemRest B) s :
  nystroem_predict (super s) d = Raise e ->
  bind (call_predict nystroem_predict d) k s = mk_run (Raise e) s [CallPredict d].
Proof. unfold call_predict. run_step. simpl. intros ->. reflexivity. Qed.

Ltac mstep :=
  first [ rewrite bind_lift_Ok | rewrite bind_lift_Raise | rewrite bind_gets
        | rewrite bind_modify | rewrite bind_ret ];
  cbv beta.

Lemma fit_calls_app (tr1 tr2 : list (event F ContextMeta)) :
  fit_calls (tr1 ++ tr2) = fit_calls tr1 + fit_calls tr2.
Proof. unfold fit_calls. now rewrite filter_app, length_app. Qed.

Lemma predict_calls_app (tr1 tr2 : list (event F ContextMeta)) :
  predict_calls (tr1 ++ tr2) = predict_calls tr1 + predict_calls tr2.
Proof. unfold predict_calls. now rewrite filter_app, length_app. Qed.

(** One call of [traj_to_contexts]: the object is not touched, and the
    one event recorded is no call of the inherited [fit] or [predict]. *)
Lemma call_traj_to_contexts_run (x : pyobj) cwl lag s :
  exists ev res,
    call_traj_to_contexts x cwl lag s = mk_run res s [ev] /\
    fit_calls [ev] = 0 /\ predict_calls [ev] = 0 /\ printed [ev] = [].
Proof.
  destruct x; unfold call_traj_to_contexts; run_step; simpl;
    eexists; eexists; (split; [reflexivity|]); repeat split.
Qed.

(** *** Indexing the normalised input *)

Lemma items_length a k sh : shape a = k :: sh -> List.length (items a) = k.
Proof. unfold items; intros ->; now rewrite length_map, length_seq. Qed.

Lemma getitem_array a i d :
  i < List.length (items a) ->
  getitem (Array a : pyobj) i = Ok (Array (nth i (items a) d)).
Proof.
  unfold items; simpl; unfold nd_item. destruct (shape a) as [|k sh]; simpl; [lia|].
  rewrite length_map, length_seq; intros Hi.
  apply Nat.ltb_lt in Hi as Hb; rewrite Hb. cbn [result_bind].
  rewrite (nth_indep _ d (mk_nd sh (firstn (size_of sh) (skipn (0 * size_of sh) (elems a)))))
    by now rewrite length_map, length_seq.
  rewrite (map_nth (fun i => mk_nd sh (firstn (size_of sh) (skipn (i * size_of sh) (elems a))))).
  now rewrite seq_nth.
Qed.

Lemma items_newaxis a : well_formed a -> items (newaxis a) = [a].
Proof.
  unfold items, newaxis, well_formed; simpl; intros H.
  rewrite firstn_all2 by lia. now destruct a.
Qed.

Lemma normalised_getitem trajs i d :
  documented_input trajs -> i < List.length (trajectories trajs) ->
  getitem (normalised trajs) i = Ok (Array (nth i (trajectories trajs) d)).
Proof.
  destruct trajs as [a|a|l|c]; simpl; [| | |intros []].
  1,2: intros [Hd Hwf]; unfold normalised; destruct (ndim a =? 2) eqn:E;
    [ intros Hi; rewrite (@getitem_array (newaxis a) i d);
      rewrite (items_newaxis Hwf); [reflexivity | exact Hi]
    | intros Hi; exact (@getitem_array a i d Hi) ].
  intros _ Hi. destruct (nth_error l i) eqn:E.
  - now rewrite (nth_error_nth _ _ _ E).
  - apply nth_error_None in E; lia.
Qed.

Lemma normalised_len trajs :
  documented_input trajs ->
  len (normalised trajs) = Ok (List.length (trajectories trajs)).
Proof.
  destruct trajs as [a|a|l|c]; simpl; [| | |intros []].
  1,2: intros [Hd Hwf]; unfold normalised; destruct (ndim a =? 2) eqn:E; simpl;
    [ reflexivity
    | apply Nat.eqb_neq in E; unfold ndim in *; unfold nd_len;
      destruct (shape a) as [|k sh] eqn:Es; simpl in *; [lia|];
      now rewrite (items_length _ Es) ].
  intros _; reflexivity.
Qed.

(** *** The loop of [compute_hankel] *)

Lemma hankel_loop_fold trajs ts : forall i0 c s dflt,
  (forall j, j < List.length ts -> getitem trajs (i0 + j) = Ok (Array (nth j ts dflt))) ->
  let r := hankel_loop trajs (seq i0 (List.length ts)) c s in
  outcome r = hankel_fold (context_window_len s) (delay_interval s) ts c /\
  final r = s /\
  fit_calls (calls r) = 0 /\ predict_calls (calls r) = 0 /\
  (forall c', outcome r = Ok c' ->
     calls r = map (fun t => CallTrajToContexts t (context_window_len s) (delay_interval s)) ts).
Proof.
  induction ts as [|t ts IH]; intros i0 c s dflt Hget; simpl.
  - repeat split; auto.
  - pose proof (Hget 0 (Nat.lt_0_succ _)) as H0; rewrite Nat.add_0_r in H0; simpl in H0.
    unfold bind at 1, lift at 1; simpl; rewrite H0; simpl.
    unfold call_traj_to_contexts, bind, lift, gets, emit; simpl.
    destruct (traj_to_contexts t (context_window_len s) (delay_interval s)) as [c1|e] eqn:E1;
      simpl; [|repeat split; auto; discriminate].
    destruct (concatenate (ctx_data c) (ctx_data c1)) as [dd|e] eqn:E2;
      simpl; [|repeat split; auto; discriminate].
    destruct (IH (S i0) (set_ctx_data c dd) s dflt) as (Ho & Hf & Hc1 & Hc2 & Hc).
    { intros j Hj. specialize (Hget (S j)). simpl in Hget.
      rewrite Nat.add_succ_r in Hget. apply Hget; lia. }
    simpl in *. unfold bind, lift, gets, emit, call_traj_to_contexts in *; simpl in *.
    repeat split; auto.
    intros c' Hc'. f_equal. now apply Hc with c'.
Qed.

Lemma hankel_loop_frame trajs idxs : forall c s,
  let r := hankel_loop trajs idxs c s in
  final r = s /\ fit_calls (calls r) = 0 /\ predict_calls (calls r) = 0.
Proof.
  induction idxs as [|i idxs IH]; intros c s; simpl; [auto|].
  destruct (getitem trajs i) as [t|e]; mstep; [|simpl; auto].
  mstep. mstep.
  destruct (call_traj_to_contexts_run t (context_window_len s) (delay_interval s) s)
    as (ev & [c1|e] & Hr & Hf & Hp & _).
  2:{ rewrite bind_Raise with (1 := Hr). simpl. auto. }
  rewrite bind_run_Ok with (1 := Hr). unfold prepend; cbn [final calls].
  destruct (concatenate (ctx_data c) (ctx_data c1)) as [dd|e]; mstep;
    [|simpl; auto].
  destruct (IH (set_ctx_data c dd) s) as (Hf' & Hc1 & Hc2).
  rewrite fit_calls_app, predict_calls_app, Hf, Hp, Hc1, Hc2. auto.
Qed.

Lemma concatenate_stack a b :
  shape a <> [] -> shape b <> [] -> tl (shape b) = tl (shape a) ->
  concatenate a b = Ok (mk_nd (lead a + lead b :: tl (shape a)) (elems a ++ elems b)).
Proof.
  unfold concatenate, lead.
  destruct (shape a) as [|ka sa]; [congruence|].
  destruct (shape b) as [|kb sb]; [congruence|]; simpl.
  intros _ _ ->. now rewrite shape_eqb_refl.
Qed.

Lemma hankel_fold_concat cwl lag ts cs :
  Forall2 (fun t c => traj_to_contexts t cwl lag = Ok c) ts cs ->
  forall c0, stackable (ctx_data c0) (map (@ctx_data F ContextMeta) cs) ->
  hankel_fold cwl lag ts c0
  = Ok (set_ctx_data c0 (concat_axis0 (ctx_data c0) (map (@ctx_data F ContextMeta) cs))).
Proof.
  induction 1 as [|t c1 ts cs Ht HF IH]; intros c0 Hst; simpl.
  - now destruct c0.
  - rewrite Ht; simpl.
    destruct Hst as [Hst|Hst]; [discriminate|].
    apply Forall_cons_iff in Hst as [[Hn0 _] Hst].
    apply Forall_cons_iff in Hst as [[Hn1 Ht1] Hst].
    rewrite (concatenate_stack _ _ Hn0 Hn1 Ht1); simpl.
    rewrite IH.
    + unfold set_ctx_data, lead; simpl. do 2 f_equal.
      destruct cs as [|c2 cs]; simpl.
      * now rewrite Nat.add_0_r, app_nil_r.
      * now rewrite !Nat.add_assoc, <- !app_assoc.
    + right; simpl. constructor; [split; [discriminate | reflexivity]|].
      eapply Forall_impl; [|exact Hst]. simpl; intros b [Hb1 Hb2]; auto.
Qed.

Lemma concatenate_Ok_inv a b x :
  concatenate a b = Ok x ->
  shape a <> [] /\ shape b <> [] /\ tl (shape b) = tl (shape a) /\
  shape x <> [] /\ tl (shape x) = tl (shape a).
Proof.
  unfold concatenate.
  destruct (shape a) as [|ka sa]; [discriminate|].
  destruct (shape b) as [|kb sb]; [discriminate|].
  destruct (shape_eqb sa sb) eqn:E; [|discriminate].
  apply shape_eqb_eq in E; subst. intros [= <-]; simpl.
  repeat split; discriminate.
Qed.

Lemma hankel_fold_inv cwl lag ts : forall c0 c',
  hankel_fold cwl lag ts c0 = Ok c' ->
  exists cs, Forall2 (fun t c => traj_to_contexts t cwl lag = Ok c) ts cs /\
             stackable (ctx_data c0) (map (@ctx_data F ContextMeta) cs).
Proof.
  induction ts as [|t ts IH]; intros c0 c'; simpl.
  - intros _. exists []; split; [constructor | now left].
  - destruct (traj_to_contexts t cwl lag) as [c1|e] eqn:E1; simpl; [|discriminate].
    destruct (concatenate (ctx_data c0) (ctx_data c1)) as [dd|e] eqn:E2; simpl;
      [|discriminate].
    intros H. destruct (IH _ _ H) as (cs & HF & Hst).
    apply concatenate_Ok_inv in E2 as (Hn0 & Hn1 & Ht1 & Hnd & Htd).
    exists (c1 :: cs); split; [now constructor|].
    right; simpl. constructor; [auto|]. constructor; [auto|].
    destruct Hst as [Hst|Hst].
    + apply map_eq_nil in Hst; subst; constructor.
    + simpl in Hst. apply Forall_inv_tail in Hst.
      eapply Forall_impl; [|exact Hst]. simpl; intros b [Hb1 Hb2].
      split; [auto | congruence].
Qed.

(** The run of [compute_hankel] on an input whose trajectories are all
    embedded by the library into arrays that can be stacked. *)
Lemma compute_hankel_run s trajs t0 ts c0 cs :
  documented_input trajs ->
  trajectories trajs = t0 :: ts ->
  Forall2 (fun t c => traj_to_contexts t (context_window_len s) (delay_interval s) = Ok c)
    (t0 :: ts) (c0 :: cs) ->
  stackable (ctx_data c0) (map (@ctx_data F ContextMeta) cs) ->
  compute_hankel trajs s
  = mk_run (Ok tt)
      (set_data (ContextsObj
                   (set_ctx_data c0
                      (concat_axis0 (ctx_data c0) (map (@ctx_data F ContextMeta) cs)))) s)
      (map (fun t => CallTrajToContexts t (context_window_len s) (delay_interval s))
           (t0 :: ts)
       ++ if verbose s then [PrintLine "Hankel matrix computed"] else []).
Proof.
  intros Hdoc Htr HF Hst.
  apply Forall2_cons_iff in HF as [H0 HF].
  assert (Hget : forall i, i < List.length (trajectories trajs) ->
            getitem (normalised trajs) i = Ok (Array (nth i (trajectories trajs) t0)))
    by (intros; now apply normalised_getitem).
  pose proof (normalised_len trajs Hdoc) as Hlen.
  rewrite Htr in Hget, Hlen; simpl in Hget, Hlen.
  assert (Hg0 : getitem (normalised trajs) 0 = Ok (Array t0)) by (apply (Hget 0); lia).
  destruct (hankel_loop_fold (normalised trajs) ts 1 c0 s t0) as (Ho & Hf & _ & _ & Hc).
  { intros j Hj. apply (Hget (S j)). lia. }
  rewrite (hankel_fold_concat HF _ Hst) in Ho.
  specialize (Hc _ Ho).
  unfold compute_hankel. fold (normalised trajs).
  run_step. rewrite Hg0; run_step. rewrite H0; run_step. rewrite Hlen; run_step.
  replace (S (List.length ts) - 1) with (List.length ts) by lia.
  set (r := hankel_loop (normalised trajs) (seq 1 (List.length ts)) c0 s) in *.
  destruct r as [o f c]; simpl in Ho, Hf, Hc; subst o f c.
  run_step; simpl. destruct (verbose s); simpl; rewrite ?app_nil_r; reflexivity.
Qed.

Lemma normalised_getitem_empty trajs :
  documented_input trajs -> trajectories trajs = [] ->
  getitem (normalised trajs) 0 = Raise IndexError.
Proof.
  destruct trajs as [a|a|l|c]; simpl; [| | |intros []].
  1,2: intros [Hd Hwf]; unfold normalised; destruct (ndim a =? 2) eqn:E;
    [ discriminate
    | unfold items; simpl; unfold nd_item; destruct (shape a) as [|k sh]; auto;
      destruct k; [reflexivity | discriminate] ].
  intros _ ->; reflexivity.
Qed.

(** Whatever the input, [compute_hankel] assigns [self.data] as its one
    change to the object, and only once everything before it has succeeded;
    it never calls the inherited [fit] or [predict]. *)
Lemma compute_hankel_frame trajs s :
  let r := compute_hankel trajs s in
  (outcome r = Ok tt -> exists c, final r = set_data (ContextsObj c) s) /\
  (forall e, outcome r = Raise e -> final r = s) /\
  fit_calls (calls r) = 0 /\ predict_calls (calls r) = 0.
Proof.
  cbv zeta. unfold compute_hankel. fold (normalised trajs).
  destruct (getitem (normalised trajs) 0) as [t0|e]; mstep;
    [|simpl; repeat split; auto; discriminate].
  mstep. mstep.
  destruct (call_traj_to_contexts_run t0 (context_window_len s) (delay_interval s) s)
    as (ev & [c0|e] & Hr & Hf & Hp & _).
  2:{ rewrite bind_Raise with (1 := Hr). simpl. repeat split; auto; discriminate. }
  rewrite bind_run_Ok with (1 := Hr). unfold prepend; cbn [outcome final calls].
  destruct (len (normalised trajs)) as [n|e]; mstep;
    [|simpl; repeat split; auto; discriminate].
  destruct (hankel_loop_frame (normalised trajs) (seq 1 (n - 1)) c0 s) as (Hf' & Hc1 & Hc2).
  destruct (hankel_loop (normalised trajs) (seq 1 (n - 1)) c0 s) as [[c1|e] f tr] eqn:El;
    simpl in Hf', Hc1, Hc2; subst f.
  - rewrite bind_run_Ok with (1 := El). mstep. mstep.
    unfold prepend; cbn [outcome final calls].
    rewrite !fit_calls_app, !predict_calls_app, Hf, Hp, Hc1, Hc2.
    destruct (verbose (set_data (ContextsObj c1) s)); simpl; repeat split; eauto;
      discriminate.
  - rewrite bind_Raise with (1 := El). cbn [outcome final calls].
    rewrite !fit_calls_app, !predict_calls_app, Hf, Hp, Hc1, Hc2.
    repeat split; auto; discriminate.
Qed.

Lemma compute_hankel_Ok_inv s trajs :
  documented_input trajs ->
  outcome (compute_hankel trajs s) = Ok tt ->
  exists c0 cs,
    Forall2 (fun t c => traj_to_contexts t (context_window_len s) (delay_interval s) = Ok c)
      (trajectories trajs) (c0 :: cs) /\
    stackable (ctx_data c0) (map (@ctx_data F ContextMeta) cs).
Proof.
  intros Hdoc.
  destruct (trajectories trajs) as [|t0 ts] eqn:Htr.
  - unfold compute_hankel. fold (normalised trajs). run_step.
    rewrite (normalised_getitem_empty trajs Hdoc Htr). run_step. discriminate.
  - assert (Hget : forall i, i < List.length (trajectories trajs) ->
              getitem (normalised trajs) i = Ok (Array (nth i (trajectories trajs) t0)))
      by (intros; now apply normalised_getitem).
    pose proof (normalised_len trajs Hdoc) as Hlen.
    rewrite Htr in Hget, Hlen; simpl in Hget, Hlen.
    assert (Hg0 : getitem (normalised trajs) 0 = Ok (Array t0)) by (apply (Hget 0); lia).
    assert (Hloop : forall c0,
              outcome (hankel_loop (normalised trajs) (seq 1 (List.length ts)) c0 s)
              = hankel_fold (context_window_len s) (delay_interval s) ts c0).
    { intros c0. apply (hankel_loop_fold (normalised trajs) ts 1 c0 s t0).
      intros j Hj. apply (Hget (S j)). lia. }
    unfold compute_hankel. fold (normalised trajs). run_step.
    rewrite Hg0; run_step.
    destruct (traj_to_contexts t0 (context_window_len s) (delay_interval s)) as [c0|e] eqn:E0;
      run_step; [|discriminate].
    rewrite Hlen; run_step.
    replace (S (List.length ts) - 1) with (List.length ts) by lia.
    specialize (Hloop c0).
    destruct (hankel_loop (normalised trajs) (seq 1 (List.length ts)) c0 s) as [[c1|e] f tr];
      simpl in Hloop; run_step; [|discriminate].
    intros _. symmetry in Hloop.
    destruct (hankel_fold_inv _ _ _ _ Hloop) as (cs & HF & Hst).
    exists c0, cs; split; [now constructor | assumption].
Qed.

(** *** C1: the data of the Hankel contexts *)

(** C1. On a tensor, a 2-D array (one trajectory), a 3-D array or a list of
    2-D trajectories, [compute_hankel] returns exactly when the library
    embeds every trajectory of a non-empty batch, with context window
    [n_delays + 1] and time lag [delay_interval], into arrays that can be
    stacked; [self.data] then holds a contexts object whose data array is the
    concatenation along axis 0, in input order, of the data arrays of the
    per-trajectory contexts. *)
Theorem compute_hankel_concatenates s trajs :
  consistent s -> documented_input trajs ->
  let embed t c := traj_to_contexts t (n_delays s + 1) (delay_interval s) = Ok c in
  let r := compute_hankel trajs s in
  (forall c0 cs,
      Forall2 embed (trajectories trajs) (c0 :: cs) ->
      stackable (ctx_data c0) (map (@ctx_data F ContextMeta) cs) ->
      outcome r = Ok tt /\
      exists c, data (final r) = ContextsObj c /\
                ctx_data c = concat_axis0 (ctx_data c0) (map (@ctx_data F ContextMeta) cs))
  /\
  (outcome r = Ok tt ->
   exists c0 cs,
     Forall2 embed (trajectories trajs) (c0 :: cs) /\
     stackable (ctx_data c0) (map (@ctx_data F ContextMeta) cs)).
Proof.
  intros Hcons Hdoc embed r; subst embed r.
  unfold consistent in Hcons; rewrite <- Hcons.
  split.
  - intros c0 cs HF Hst.
    destruct (trajectories trajs) as [|t0 ts] eqn:Htr; [inversion HF|].
    rewrite (compute_hankel_run s trajs Hdoc Htr HF Hst); simpl.
    split; [reflexivity|]. eexists; split; reflexivity.
  - now apply compute_hankel_Ok_inv.
Qed.

(** *** C4: the guard on [reseed] *)

Lemma predict_without_reseed s (test_data : option pyobj) :
  predict test_data None s
  = predict_from (match test_data with None => data s | Some d => d end) 1 s.
Proof.
  unfold predict. run_step.
  now destruct (predict_from (match test_data with None => data s | Some d => d end) 1 s).
Qed.

(** C4. With [reseed] given, whatever its value and whatever the test data,
    [predict] raises [NotImplementedError] at once: no attribute is changed
    and no library call is made, so no prediction is computed.  With
    [reseed] left as [None] the local variable is set to 1 and the prediction
    proceeds; nothing after the guard reads the variable. *)
Theorem predict_reseed_guard s (test_data : option pyobj) (reseed : nat) :
  predict test_data (Some reseed) s = mk_run (Raise NotImplementedError) s [] /\
  predict test_data None s
  = predict_from (match test_data with None => data s | Some d => d end) 1 s /\
  (forall d, predict_from d reseed s = predict_from d 1 s).
Proof.
  split; [reflexivity|]. split; [apply predict_without_reseed | reflexivity].
Qed.

(** *** C5: shape normalisation *)

Lemma ndim_newaxis a : ndim (newaxis a) = S (ndim a).
Proof. reflexivity. Qed.

Lemma compute_hankel_newaxis s x :
  ndim x = 2 -> compute_hankel (Array x) s = compute_hankel (Array (newaxis x)) s.
Proof.
  intros Hx. unfold compute_hankel.
  rewrite ndim_newaxis, Hx. reflexivity.
Qed.

Lemma predict_from_newaxis s x reseed :
  ndim x = 2 ->
  predict_from (Array x) reseed s = predict_from (Array (newaxis x)) reseed s.
Proof.
  intros Hx.
  assert (H3 : (ndim (newaxis x) =? 2) = false) by (rewrite ndim_newaxis, Hx; reflexivity).
  assert (H2 : (ndim x =? 2) = true) by (rewrite Hx; reflexivity).
  unfold predict_from, as_array. rewrite !bind_lift_Ok.
  now rewrite H3, H2.
Qed.

(** No method handles an exception.  For one: when the library refuses the
    first trajectory, [compute_hankel] ends with the library's exception,
    the object as it was. *)
Lemma compute_hankel_propagates s trajs t0 e :
  getitem (normalised trajs) 0 = Ok (Array t0) ->
  traj_to_contexts t0 (context_window_len s) (delay_interval s) = Raise e ->
  compute_hankel trajs s
  = mk_run (Raise e) s [CallTrajToContexts t0 (context_window_len s) (delay_interval s)].
Proof.
  intros Hg He. unfold compute_hankel. fold (normalised trajs).
  rewrite Hg. mstep. mstep. mstep.
  unfold call_traj_to_contexts. run_step. rewrite He. reflexivity.
Qed.

(** *** C3: what [fit] does itself *)

(** The run of [compute_kernel_dmd]: the regularisation is stored, the
    inherited [fit] is called once on [self.data], and [A_v] is assigned
    last, from the factors the library left. *)
Lemma compute_kernel_dmd_run s (lamb_arg : option F) :
  let l := match lamb_arg with None => lamb s | Some l => l end in
  let s1 := set_tikhonov_reg l s in
  let lib := nystroem_fit (super s1) (data s) in
  let r := compute_kernel_dmd lamb_arg s in
  (exists rest, calls r = CallFit (data s) :: rest /\
                fit_calls rest = 0 /\ predict_calls rest = 0) /\
  super (final r) = snd lib /\
  data (final r) = data s /\
  (forall v k u vk vku n,
      fst lib = Ok tt ->
      V (snd lib) = Some v -> kernel_YX (snd lib) = Some k -> U (snd lib) = Some u ->
      matmul (transpose v) k = Ok vk -> matmul vk u = Ok vku -> nd_len k = Ok n ->
      r = mk_run (Ok tt)
            (set_A_v (true_divide vku n) (set_super (snd lib) s1))
            (CallFit (data s)
               :: if verbose s then [PrintLine "kernel regression complete"] else [])) /\
  (forall e, outcome r = Raise e -> A_v (final r) = A_v s).
Proof.
  intros l s1 lib r. subst r. unfold compute_kernel_dmd.
  mstep. mstep. mstep. fold l. fold s1. change (data s1) with (data s).
  destruct (fst lib) as [[]|e] eqn:Elib; subst lib.
  2:{ rewrite (bind_call_fit_Raise _ _ _ Elib). simpl.
      split; [exists []; auto|]. repeat split; auto; intros; discriminate. }
  rewrite (bind_call_fit_Ok _ _ _ Elib).
  set (b := snd (nystroem_fit (super s1) (data s))).
  set (s2 := set_super b s1).
  assert (Hfail : forall e,
    let r := prepend [CallFit (data s)] (mk_run (Raise e : result unit) s2 []) in
    (exists rest, calls r = CallFit (data s) :: rest /\
                  fit_calls rest = 0 /\ predict_calls rest = 0) /\
    super (final r) = b /\ data (final r) = data s /\
    (forall e', outcome r = Raise e' -> A_v (final r) = A_v s))
    by (intros; simpl; split; [exists []; auto | auto]).
  destruct (V b) as [v|] eqn:EV.
  2:{ rewrite (@bind_attr_None _ (@V F NystroemRest) _ s2 EV).
      destruct (Hfail AttributeError) as (?&?&?&?).
      repeat split; auto; intros; discriminate. }
  rewrite (@bind_attr_Some _ (@V F NystroemRest) _ _ s2 EV).
  destruct (kernel_YX b) as [k|] eqn:EK.
  2:{ rewrite (@bind_attr_None _ (@kernel_YX F NystroemRest) _ s2 EK).
      destruct (Hfail AttributeError) as (?&?&?&?).
      repeat split; auto; intros; discriminate. }
  rewrite (@bind_attr_Some _ (@kernel_YX F NystroemRest) _ _ s2 EK).
  destruct (matmul (transpose v) k) as [vk|e] eqn:E1; mstep.
  2:{ destruct (Hfail e) as (?&?&?&?).
      repeat split; auto; intros; congruence. }
  destruct (U b) as [u|] eqn:EU.
  2:{ rewrite (@bind_attr_None _ (@U F NystroemRest) _ s2 EU).
      destruct (Hfail AttributeError) as (?&?&?&?).
      repeat split; auto; intros; discriminate. }
  rewrite (@bind_attr_Some _ (@U F NystroemRest) _ _ s2 EU).
  destruct (matmul vk u) as [vku|e] eqn:E2; mstep.
  2:{ destruct (Hfail e) as (?&?&?&?).
      repeat split; auto; intros; congruence. }
  rewrite (@bind_attr_Some _ (@kernel_YX F NystroemRest) _ _ s2 EK).
  destruct (nd_len k) as [n|e] eqn:E3; mstep.
  2:{ destruct (Hfail e) as (?&?&?&?).
      repeat split; auto; intros; congruence. }
  mstep. mstep. unfold when, emit, ret, prepend. simpl.
  split; [eexists; split; [reflexivity|]; destruct (verbose s); auto|].
  destruct (verbose s); simpl; repeat split; auto;
    try (intros; discriminate);
    intros v' k' u' vk' vku' n' _ Hv Hk Hu H1 H2 H3;
    congruence.
Qed.


(** *** The run of [predict] *)

(** Every step of a [predict] that returns. *)
Lemma predict_from_Ok_inv s (test_data : pyobj) (reseed : nat) p :
  outcome (predict_from test_data reseed s) = Ok p ->
  exists a0 head pd1 c pred k t w pred3 pd2,
    as_array test_data = Ok a0 /\
    slice_axis1 (batch_of a0) 0 (Some (n_delays s)) = Ok head /\
    set_slice_axis1 (zeros (float64 zero) (shape (batch_of a0))) 0 (Some (n_delays s))
      (astype float64 head) = Ok pd1 /\
    outcome (compute_hankel (Array (batch_of a0)) s) = Ok tt /\
    final (compute_hankel (Array (batch_of a0)) s) = set_data (ContextsObj c) s /\
    nystroem_predict (super s) (ContextsObj c) = Ok pred /\
    shape_at (batch_of a0) 0 = Ok k /\
    shape_at (batch_of a0) 1 = Ok t /\
    shape_at (batch_of a0) 2 = Ok w /\
    reshape3 pred k (Z.of_nat t - Z.of_nat (n_delays s)) w = Ok pred3 /\
    set_slice_axis1 pd1 (n_delays s) None pred3 = Ok pd2 /\
    p = squeeze pd2 /\
    final (predict_from test_data reseed s) = set_data (ContextsObj c) s /\
    calls (predict_from test_data reseed s)
    = calls (compute_hankel (Array (batch_of a0)) s) ++ [CallPredict (ContextsObj c)].
Proof.
  unfold predict_from.
  destruct (as_array test_data) as [a0|e] eqn:Ea; mstep; [|discriminate].
  fold (batch_of a0). set (a := batch_of a0). mstep.
  destruct (slice_axis1 a 0 (Some (n_delays s))) as [head|e] eqn:Eh1; mstep; [|discriminate].
  destruct (set_slice_axis1 (zeros (float64 zero) (shape a)) 0 (Some (n_delays s))
              (astype float64 head)) as [pd1|e] eqn:Ep1;
    mstep; [|discriminate].
  destruct (compute_hankel_frame (Array a) s) as (Hok & Herr & _ & _).
  set (h := compute_hankel (Array a) s) in *.
  destruct (outcome h) as [[]|e] eqn:Eh.
  2:{ assert (Hh : compute_hankel (Array a) s = mk_run (Raise e) s (calls h))
        by (fold h; rewrite (run_eta h), Eh, (Herr e eq_refl); reflexivity).
      rewrite bind_Raise with (1 := Hh). discriminate. }
  destruct (Hok eq_refl) as [c Hc].
  assert (Hh : compute_hankel (Array a) s
               = mk_run (Ok tt) (set_data (ContextsObj c) s) (calls h))
    by (fold h; rewrite (run_eta h), Eh, Hc; reflexivity).
  rewrite bind_run_Ok with (1 := Hh). mstep.
  change (data (set_data (ContextsObj c) s)) with (ContextsObj c : pyobj).
  destruct (nystroem_predict (super s) (ContextsObj c)) as [pred|e] eqn:Ep.
  2:{ rewrite (@bind_call_predict_Raise _ _ _ _ (set_data (ContextsObj c) s) Ep).
      discriminate. }
  rewrite (@bind_call_predict_Ok _ _ _ _ (set_data (ContextsObj c) s) Ep).
  destruct (shape_at a 0) as [k|e] eqn:Ek; mstep; [|discriminate].
  destruct (shape_at a 1) as [t|e] eqn:Et; mstep; [|discriminate].
  mstep.
  destruct (shape_at a 2) as [w|e] eqn:Ew; mstep; [|discriminate].
  change (n_delays (set_data (ContextsObj c) s)) with (n_delays s).
  destruct (reshape3 pred k (Z.of_nat t - Z.of_nat (n_delays s)) w) as [pred3|e] eqn:Ep3;
    mstep; [|discriminate].
  mstep. change (n_delays (set_data (ContextsObj c) s)) with (n_delays s).
  destruct (set_slice_axis1 pd1 (n_delays s) None pred3) as [pd2|e] eqn:Ep2; mstep;
    [|discriminate].
  unfold ret, prepend; simpl.
  intros [= <-].
  exists a0, head, pd1, c, pred, k, t, w, pred3, pd2.
  rewrite ?app_nil_r. subst h a. repeat split; auto.
Qed.

Lemma compute_hankel_batch_of s a0 :
  compute_hankel (Array (batch_of a0)) s = compute_hankel (Array a0) s.
Proof.
  unfold batch_of. destruct (ndim a0 =? 2) eqn:E; [|reflexivity].
  apply Nat.eqb_eq in E. symmetry. now apply compute_hankel_newaxis.
Qed.

(** *** C9: [predict] changes [self.data] and nothing else *)

(** C9. A [predict] that returns leaves the object changed: [self.data] now
    holds the contexts object that [compute_hankel] builds from the test data
    (whatever was stored there, the fitted contexts included, is gone), and it
    is the only attribute changed: the base attributes, with [U], [V] and
    [kernel_YX], and [A_v] are as before. *)
Theorem predict_overwrites_data s (test_data : pyobj) p :
  outcome (predict (Some test_data) None s) = Ok p ->
  exists a0 c,
    as_array test_data = Ok a0 /\
    outcome (compute_hankel (Array a0) s) = Ok tt /\
    data (final (compute_hankel (Array a0) s)) = ContextsObj c /\
    final (predict (Some test_data) None s) = set_data (ContextsObj c) s /\
    data (final (predict (Some test_data) None s)) = ContextsObj c /\
    U (super (final (predict (Some test_data) None s))) = U (super s) /\
    V (super (final (predict (Some test_data) None s))) = V (super s) /\
    kernel_YX (super (final (predict (Some test_data) None s))) = kernel_YX (super s) /\
    A_v (final (predict (Some test_data) None s)) = A_v s.
Proof.
  rewrite predict_without_reseed. intros H.
  destruct (predict_from_Ok_inv _ _ _ H)
    as (a0 & head & pd1 & c & pred & k & t & w & pred3 & pd2 &
        Ha & _ & _ & Hho & Hhf & _ & _ & _ & _ & _ & _ & _ & Hf & _).
  rewrite compute_hankel_batch_of in Hho, Hhf.
  exists a0, c. rewrite Hf, Hhf. repeat split; auto.
Qed.

(** *** Conversion to float64 *)

Lemma well_formed_astype a : well_formed a -> well_formed (astype float64 a).
Proof. unfold well_formed, astype; simpl. now rewrite length_map. Qed.

Lemma slice_axis1_astype a lo hi :
  slice_axis1 (astype float64 a) lo hi
  = match slice_axis1 a lo hi with
    | Ok h => Ok (astype float64 h)
    | Raise e => Raise e
    end.
Proof.
  unfold slice_axis1, astype; simpl.
  destruct (shape a) as [|k [|t sh]]; try reflexivity.
  do 2 f_equal. cbn [elems]. rewrite chunks_map, concat_map, !map_map.
  apply f_equal, map_ext. intros blk. now rewrite skipn_map, firstn_map.
Qed.

Lemma row_map n (es : list F) t :
  row n (map float64 es) t = map float64 (row n es t).
Proof. unfold row. now rewrite skipn_map, firstn_map. Qed.

(** *** The layout of the predictions *)

Lemma assign_blocks_layout ni ti (Ab Zb Pb : list (list R)) :
  ni <= ti -> List.length Zb = List.length Ab ->
  Forall (fun b => List.length b = ti) Ab ->
  Forall (fun b => List.length b = ti) Zb ->
  map (fun ds => firstn ni (fst ds) ++ snd ds ++ skipn ti (fst ds))
    (combine
       (map (fun ds => snd ds ++ skipn ni (fst ds))
          (combine Zb (map (firstn ni) Ab)))
       Pb)
  = map (fun ap => firstn ni (fst ap) ++ snd ap) (combine Ab Pb).
Proof.
  intros Hn. revert Zb Pb.
  induction Ab as [|A Ab IH]; intros Zb Pb Hlen HA HZ.
  - destruct Zb; [reflexivity | discriminate].
  - destruct Zb as [|Z Zb]; [discriminate|]. simpl in Hlen.
    apply Forall_cons_iff in HA as [HA1 HA]. apply Forall_cons_iff in HZ as [HZ1 HZ].
    destruct Pb as [|P Pb]; [reflexivity|]. simpl.
    f_equal; [|apply IH; auto].
    rewrite firstn_app, firstn_firstn, Nat.min_id, length_firstn.
    replace (ni - Nat.min ni (List.length A)) with 0 by lia. simpl.
    rewrite app_nil_r. f_equal.
    rewrite skipn_all2; [now rewrite app_nil_r|].
    rewrite length_app, length_firstn, length_skipn. lia.
Qed.

Lemma slice_blocks_length ni ti (Ab Zb : list (list R)) :
  ni <= ti -> List.length Zb = List.length Ab ->
  Forall (fun b => List.length b = ti) Ab ->
  Forall (fun b => List.length b = ti) Zb ->
  Forall (fun b => List.length b = ti)
    (map (fun ds => snd ds ++ skipn ni (fst ds))
       (combine Zb (map (firstn ni) Ab))).
Proof.
  intros Hn. revert Zb.
  induction Ab as [|A Ab IH]; intros Zb Hlen HA HZ.
  - destruct Zb; [constructor | discriminate].
  - destruct Zb as [|Z Zb]; [discriminate|]. simpl in Hlen.
    apply Forall_cons_iff in HA as [HA1 HA]. apply Forall_cons_iff in HZ as [HZ1 HZ].
    simpl. constructor; [|apply IH; auto].
    rewrite length_app, length_firstn, length_skipn. lia.
Qed.

Lemma size_of_3 k t n : size_of [k; t; n] = k * (t * n).
Proof. unfold size_of; simpl. now rewrite Nat.mul_1_r. Qed.

Lemma slice_axis1_3d (a : farray) k t n lo hi :
  shape a = [k; t; n] -> lo <= hi -> hi <= t ->
  slice_axis1 a lo (Some hi)
  = Ok (mk_nd [k; hi - lo; n]
          (concat (map (fun blk => firstn ((hi - lo) * n) (skipn (lo * n) blk))
                     (chunks (t * n) k (elems a))))).
Proof.
  intros Hs Hlo Hhi. unfold slice_axis1, clamp. rewrite Hs.
  replace (Nat.min lo t) with lo by lia.
  replace (Nat.max lo (Nat.min hi t)) with hi by lia.
  cbn [size_of fold_right]. now rewrite Nat.mul_1_r.
Qed.

Lemma set_slice_axis1_3d (a v : farray) k t n lo (hi : option nat) h :
  shape a = [k; t; n] -> shape v = [k; h - lo; n] ->
  h = match hi with Some h' => h' | None => t end ->
  lo <= h -> h <= t ->
  set_slice_axis1 a lo hi v
  = Ok (mk_nd [k; t; n]
          (concat (map (fun ds => firstn (lo * n) (fst ds) ++ snd ds
                                    ++ skipn (h * n) (fst ds))
                     (combine (chunks (t * n) k (elems a))
                              (chunks ((h - lo) * n) k (elems v)))))).
Proof.
  intros Hs Hv Hh Hlo Hhi. unfold set_slice_axis1, clamp. rewrite Hs, Hv.
  replace (Nat.min lo t) with lo by lia.
  replace (Nat.max lo match hi with Some h' => Nat.min h' t | None => t end) with h
    by (destruct hi; subst; lia).
  cbn [size_of fold_right]. rewrite Nat.mul_1_r.
  rewrite !Nat.eqb_refl, shape_eqb_refl. cbn [andb orb].
  unfold broadcast_rows. rewrite Nat.eqb_refl.
  replace (lo + (h - lo)) with h by lia. reflexivity.
Qed.

Lemma repeat_blocks (x : R) k m :
  Forall (fun b => List.length b = m) (chunks m k (repeat x (k * m))).
Proof. apply chunks_Forall_length. now rewrite repeat_length. Qed.

(** The array [predict] fills, for a batch of shape (k, t, n) and
    [n_delays <= t]: in each trajectory the first [n_delays] samples of the
    test data, then that trajectory's share of the library's predictions. *)
Lemma prediction_array (z : R) (a pred head pd1 pred3 pd2 : farray) k t n nd :
  shape a = [k; t; n] -> well_formed a -> well_formed pred -> nd <= t ->
  slice_axis1 a 0 (Some nd) = Ok head ->
  set_slice_axis1 (zeros z (shape a)) 0 (Some nd) head = Ok pd1 ->
  reshape3 pred k (Z.of_nat t - Z.of_nat nd) n = Ok pred3 ->
  set_slice_axis1 pd1 nd None pred3 = Ok pd2 ->
  shape pd2 = [k; t; n] /\
  List.length (elems pred) = k * ((t - nd) * n) /\
  elems pd2
  = concat (map (fun ap => firstn (nd * n) (fst ap) ++ snd ap)
              (combine (chunks (t * n) k (elems a))
                       (chunks ((t - nd) * n) k (elems pred)))).
Proof.
  intros Hs Hwa Hwp Hnd Hhead Hpd1 Hp3 Hpd2.
  unfold well_formed in Hwa, Hwp. rewrite Hs, size_of_3 in Hwa.
  rewrite slice_axis1_3d with (1 := Hs) in Hhead by lia.
  rewrite Nat.sub_0_r in Hhead. injection Hhead as <-.
  rewrite (@set_slice_axis1_3d _ _ k t n 0 (Some nd) nd) in Hpd1;
    try lia; try reflexivity; [|now rewrite Hs | now rewrite Nat.sub_0_r].
  injection Hpd1 as <-.
  unfold reshape3 in Hp3.
  replace (0 <=? Z.of_nat t - Z.of_nat nd)%Z with true in Hp3
    by (symmetry; apply Z.leb_le; lia).
  replace (Z.to_nat (Z.of_nat t - Z.of_nat nd)) with (t - nd) in Hp3 by lia.
  destruct (size_of (shape pred) =? k * (t - nd) * n) eqn:Esz; [|discriminate].
  apply Nat.eqb_eq in Esz. injection Hp3 as <-.
  rewrite (@set_slice_axis1_3d _ _ k t n nd None t) in Hpd2;
    try lia; try reflexivity.
  injection Hpd2 as <-. split; [reflexivity|]. split; [lia|].
  cbn [elems shape]. rewrite Nat.sub_0_r.
  assert (Hmul : nd * n <= t * n) by now apply Nat.mul_le_mono_r.
  set (Ab := chunks (t * n) k (elems a)).
  set (Zb := chunks (t * n) k (repeat z (size_of (shape a)))).
  assert (HAb : Forall (fun b => List.length b = t * n) Ab)
    by now apply chunks_Forall_length.
  assert (HZb : Forall (fun b => List.length b = t * n) Zb)
    by (subst Zb; rewrite Hs, size_of_3; apply repeat_blocks).
  assert (Hlen : List.length Zb = List.length Ab)
    by (subst Zb Ab; now rewrite !chunks_length).
  assert (E1 : chunks (nd * n) k (concat (map (fun blk => firstn (nd * n) blk) Ab))
               = map (firstn (nd * n)) Ab).
  { apply chunks_concat_len.
    - subst Ab. now rewrite length_map, chunks_length.
    - apply Forall_map. eapply Forall_impl; [|exact HAb].
      simpl; intros b Hb. rewrite length_firstn. lia. }
  rewrite E1.
  rewrite chunks_concat_len.
  - now rewrite assign_blocks_layout.
  - rewrite length_map, length_combine, length_map, Hlen, Nat.min_id.
    subst Ab. apply chunks_length.
  - now apply slice_blocks_length.
Qed.

Lemma row_in_blocks n m (es : list R) k k0 i :
  List.length es = k * (m * n) -> k0 < k -> i < m ->
  row n es (k0 * m + i) = firstn n (skipn (i * n) (nth k0 (chunks (m * n) k es) [])).
Proof.
  intros Hl Hk Hi. unfold row.
  rewrite <- (concat_chunks (m * n) k es Hl) at 1.
  replace ((k0 * m + i) * n) with (k0 * (m * n) + i * n) by lia.
  apply firstn_skipn_concat_blocks.
  - now apply chunks_Forall_length.
  - now rewrite chunks_length.
  - nia.
Qed.

Lemma firstn_skipn_firstn w r m (l : list R) :
  r + w <= m -> firstn w (skipn r (firstn m l)) = firstn w (skipn r l).
Proof.
  intros H. rewrite skipn_firstn_comm, firstn_firstn.
  now replace (Nat.min w (m - r)) with w by lia.
Qed.

(** Reading the layout sample by sample: in the batch of shape (k, t, n),
    sample [i] of trajectory [k0] is row [k0 * t + i]. *)
Lemma prediction_rows (a pred pd : farray) k t n nd :
  shape a = [k; t; n] -> well_formed a -> nd <= t ->
  List.length (elems pred) = k * ((t - nd) * n) ->
  elems pd
  = concat (map (fun ap => firstn (nd * n) (fst ap) ++ snd ap)
              (combine (chunks (t * n) k (elems a))
                       (chunks ((t - nd) * n) k (elems pred)))) ->
  forall k0 i, k0 < k -> i < t ->
    row n (elems pd) (k0 * t + i)
    = if i <? nd then row n (elems a) (k0 * t + i)
      else row n (elems pred) (k0 * (t - nd) + (i - nd)).
Proof.
  intros Hs Hwa Hnd Hlp Hpd k0 i Hk Hi.
  unfold well_formed in Hwa. rewrite Hs, size_of_3 in Hwa.
  set (Ab := chunks (t * n) k (elems a)) in *.
  set (Pb := chunks ((t - nd) * n) k (elems pred)) in *.
  assert (HAb : Forall (fun b => List.length b = t * n) Ab)
    by now apply chunks_Forall_length.
  assert (HPb : Forall (fun b => List.length b = (t - nd) * n) Pb)
    by now apply chunks_Forall_length.
  assert (HlA : List.length Ab = k) by apply chunks_length.
  assert (HlP : List.length Pb = k) by apply chunks_length.
  set (bs := map (fun ap => firstn (nd * n) (fst ap) ++ snd ap) (combine Ab Pb)) in *.
  assert (Hlb : List.length bs = k)
    by (subst bs; rewrite length_map, length_combine; lia).
  assert (Hnth : nth k0 bs [] = firstn (nd * n) (nth k0 Ab []) ++ nth k0 Pb []).
  { pose (f := fun ap : list R * list R => firstn (nd * n) (fst ap) ++ snd ap).
    transitivity (f (nth k0 (combine Ab Pb) ([], []))).
    - rewrite <- (map_nth f). apply nth_indep.
      rewrite length_map, length_combine. lia.
    - rewrite combine_nth by lia. reflexivity. }
  assert (HA0 : List.length (nth k0 Ab []) = t * n)
    by (apply nth_Forall_length; [assumption | lia]).
  assert (Hbs : Forall (fun b => List.length b = t * n) bs).
  { subst bs. apply Forall_map. apply Forall_forall. intros [A P] Hin.
    pose proof (in_combine_l _ _ _ _ Hin) as HinA.
    pose proof (in_combine_r _ _ _ _ Hin) as HinP.
    rewrite Forall_forall in HAb, HPb.
    simpl. rewrite length_app, length_firstn, (HAb _ HinA), (HPb _ HinP). nia. }
  assert (Hrow : row n (elems pd) (k0 * t + i)
                 = firstn n (skipn (i * n) (nth k0 bs []))).
  { unfold row. rewrite Hpd.
    replace ((k0 * t + i) * n) with (k0 * (t * n) + i * n) by lia.
    apply firstn_skipn_concat_blocks; [assumption | lia | nia]. }
  rewrite Hrow, Hnth.
  destruct (i <? nd) eqn:E.
  - apply Nat.ltb_lt in E.
    rewrite (@row_in_blocks n t (elems a) k k0 i Hwa Hk Hi). fold Ab.
    rewrite skipn_app, firstn_app, length_skipn, length_firstn, HA0.
    replace (n - (Nat.min (nd * n) (t * n) - i * n)) with 0 by nia.
    simpl. rewrite app_nil_r. apply firstn_skipn_firstn. nia.
  - apply Nat.ltb_ge in E.
    rewrite (@row_in_blocks n (t - nd) (elems pred) k k0 (i - nd) Hlp Hk) by lia. fold Pb.
    rewrite skipn_app, length_firstn, HA0.
    rewrite (skipn_all2 (firstn (nd * n) (nth k0 Ab []))) by (rewrite length_firstn; nia).
    simpl. f_equal. f_equal. nia.
Qed.

Lemma shape_at_3d a k t n :
  shape a = [k; t; n] ->
  shape_at a 0 = Ok k /\ shape_at a 1 = Ok t /\ shape_at a 2 = Ok n.
Proof. unfold shape_at; intros ->; auto. Qed.

(** The samples of a [predict] that returns, for test data that is (after
    the conversions) a well-formed batch of shape (k, t, n) with
    [n_delays <= t], when the library's [predict] gives a well-formed array
    [pred]: the first [n_delays] samples of each trajectory are those of the
    test data as float64, the later ones are the rows of [pred], in order. *)
Lemma predict_rows s (test_data : pyobj) p a0 k t n :
  outcome (predict (Some test_data) None s) = Ok p ->
  as_array test_data = Ok a0 ->
  shape (batch_of a0) = [k; t; n] -> well_formed (batch_of a0) ->
  n_delays s <= t ->
  (forall c pred,
      data (final (compute_hankel (Array a0) s)) = ContextsObj c ->
      nystroem_predict (super s) (ContextsObj c) = Ok pred -> well_formed pred) ->
  exists c pred,
    outcome (compute_hankel (Array a0) s) = Ok tt /\
    data (final (compute_hankel (Array a0) s)) = ContextsObj c /\
    nystroem_predict (super s) (ContextsObj c) = Ok pred /\
    predict_calls (calls (predict (Some test_data) None s)) = 1 /\
    shape p = filter (fun d => negb (d =? 1)) [k; t; n] /\
    forall k0 i, k0 < k -> i < t ->
      row n (elems p) (k0 * t + i)
      = if i <? n_delays s
        then map float64 (row n (elems (batch_of a0)) (k0 * t + i))
        else row n (elems pred) (k0 * (t - n_delays s) + (i - n_delays s)).
Proof.
  rewrite predict_without_reseed. intros H Ha Hs Hwa Hnd Hlib.
  destruct (predict_from_Ok_inv _ _ _ H)
    as (a0' & head & pd1 & c & pred & k' & t' & w & pred3 & pd2 &
        Ha' & Hhead & Hpd1 & Hho & Hhf & Hpred & Hk & Ht & Hw & Hp3 & Hpd2 & Hp & Hf & Hc).
  rewrite Ha in Ha'. injection Ha' as <-.
  destruct (shape_at_3d _ Hs) as (Hk' & Ht' & Hw').
  rewrite Hk' in Hk. rewrite Ht' in Ht. rewrite Hw' in Hw.
  injection Hk as <-. injection Ht as <-. injection Hw as <-.
  destruct (compute_hankel_frame (Array (batch_of a0)) s) as (_ & _ & _ & Hpc).
  rewrite compute_hankel_batch_of in Hho, Hhf, Hc.
  rewrite compute_hankel_batch_of in Hpc.
  assert (Hwp : well_formed pred) by (apply (Hlib c); [now rewrite Hhf | assumption]).
  assert (Hhead' : slice_axis1 (astype float64 (batch_of a0)) 0 (Some (n_delays s))
                   = Ok (astype float64 head))
    by (rewrite slice_axis1_astype, Hhead; reflexivity).
  assert (Hs' : shape (astype float64 (batch_of a0)) = [k; t; n]) by exact Hs.
  destruct (@prediction_array (float64 zero) (astype float64 (batch_of a0)) pred
              (astype float64 head) pd1 pred3 pd2 k t n (n_delays s)
              Hs' (well_formed_astype Hwa) Hwp Hnd Hhead' Hpd1 Hp3 Hpd2)
    as (Hsh & Hlp & Hel).
  exists c, pred.
  split; [assumption|]. split; [now rewrite Hhf|]. split; [assumption|].
  split; [rewrite Hc; unfold predict_calls in *;
          rewrite filter_app, length_app, Hpc; reflexivity|].
  subst p. unfold squeeze; simpl. rewrite Hsh.
  split; [reflexivity|].
  intros k0 i Hk0 Hi. rewrite <- row_map.
  exact (@prediction_rows (astype float64 (batch_of a0)) pred pd2 k t n (n_delays s)
           Hs' (well_formed_astype Hwa) Hnd Hlp Hel k0 i Hk0 Hi).
Qed.

(** *** C2: where the predictions come from *)

(** C2 (as the code has it). A [predict] that returns makes one call of the
    inherited [predict], on the Hankel contexts of the test data, and every
    prediction is a row of that call's result: for a batch of shape
    (k, t, n), sample [i >= n_delays] of trajectory [k0] is row
    [k0 * (t - n_delays) + (i - n_delays)] of the array the library returned.
    The contexts are built from the test data alone, so no prediction is
    computed from an earlier prediction. *)
Theorem predict_single_library_call s (test_data : pyobj) p a0 k t n :
  outcome (predict (Some test_data) None s) = Ok p ->
  as_array test_data = Ok a0 ->
  shape (batch_of a0) = [k; t; n] -> well_formed (batch_of a0) ->
  n_delays s <= t ->
  (forall c pred,
      data (final (compute_hankel (Array a0) s)) = ContextsObj c ->
      nystroem_predict (super s) (ContextsObj c) = Ok pred -> well_formed pred) ->
  exists c pred,
    outcome (compute_hankel (Array a0) s) = Ok tt /\
    data (final (compute_hankel (Array a0) s)) = ContextsObj c /\
    nystroem_predict (super s) (ContextsObj c) = Ok pred /\
    predict_calls (calls (predict (Some test_data) None s)) = 1 /\
    forall k0 i, k0 < k -> n_delays s <= i -> i < t ->
      row n (elems p) (k0 * t + i)
      = row n (elems pred) (k0 * (t - n_delays s) + (i - n_delays s)).
Proof.
  intros H Ha Hs Hwa Hnd Hlib.
  destruct (@predict_rows s test_data p a0 k t n H Ha Hs Hwa Hnd Hlib)
    as (c & pred & Hho & Hd & Hp & Hpc & _ & Hrows).
  exists c, pred. repeat split; auto.
  intros k0 i Hk Hi Hit. rewrite (Hrows k0 i Hk Hit).
  apply Nat.ltb_ge in Hi. now rewrite Hi.
Qed.

(** *** Shapes and the copied samples *)

Lemma set_slice_axis1_shape (a v a' : farray) lo hi :
  set_slice_axis1 a lo hi v = Ok a' -> shape a' = shape a.
Proof.
  unfold set_slice_axis1.
  destruct (shape a) as [|k [|t sh]]; try discriminate.
  destruct (shape v) as [|kv [|mv shv]]; try discriminate.
  match goal with |- (if ?b then _ else _) = _ -> _ => destruct b end;
    [|discriminate].
  now intros [= <-].
Qed.

(** The shape of what [predict] returns: the shape of the batch without its
    axes of length one. *)
Lemma predict_shape s (test_data : pyobj) p a0 :
  outcome (predict (Some test_data) None s) = Ok p ->
  as_array test_data = Ok a0 ->
  shape p = filter (fun d => negb (d =? 1)) (shape (batch_of a0)).
Proof.
  rewrite predict_without_reseed. intros H Ha.
  destruct (predict_from_Ok_inv _ _ _ H)
    as (a0' & head & pd1 & c & pred & k' & t' & w & pred3 & pd2 &
        Ha' & _ & Hpd1 & _ & _ & _ & _ & _ & _ & _ & Hpd2 & Hp & _).
  rewrite Ha in Ha'. injection Ha' as <-.
  subst p. unfold squeeze; simpl.
  now rewrite (set_slice_axis1_shape _ _ _ _ Hpd2), (set_slice_axis1_shape _ _ _ _ Hpd1).
Qed.

(** X13. The samples [predict] copies.  In the array a [predict] returns,
    for test data that is (after the conversions) a well-formed batch of
    shape (k, t, n) with [n_delays <= t], and a library whose [predict]
    gives a well-formed array: the first [n_delays] samples of each
    trajectory are those of the test data converted to float64, the type of
    the array [np.zeros] makes and the slice assignment casts to, whatever
    [delay_interval] is. *)
Lemma predict_copies_n_delays s (test_data : pyobj) p a0 k t n :
  outcome (predict (Some test_data) None s) = Ok p ->
  as_array test_data = Ok a0 ->
  shape (batch_of a0) = [k; t; n] -> well_formed (batch_of a0) ->
  n_delays s <= t ->
  (forall c pred,
      data (final (compute_hankel (Array a0) s)) = ContextsObj c ->
      nystroem_predict (super s) (ContextsObj c) = Ok pred -> well_formed pred) ->
  forall k0 i, k0 < k -> i < n_delays s ->
    row n (elems p) (k0 * t + i)
    = map float64 (row n (elems (batch_of a0)) (k0 * t + i)).
Proof.
  intros H Ha Hs Hwa Hnd Hlib k0 i Hk Hi.
  destruct (@predict_rows s test_data p a0 k t n H Ha Hs Hwa Hnd Hlib)
    as (c & pred & _ & _ & _ & _ & _ & Hrows).
  rewrite (Hrows k0 i Hk) by lia.
  apply Nat.ltb_lt in Hi. now rewrite Hi.
Qed.

(** *** C6: windows and trajectory boundaries *)

Lemma chunks_stack l (ds : list ndarray) :
  Forall (fun d => List.length (elems d) = lead d * l) ds ->
  chunks l (list_sum (map (@lead F) ds)) (concat (map (@elems F) ds))
  = concat (map (fun d => chunks l (lead d) (elems d)) ds).
Proof.
  induction 1 as [|d ds Hd _ IH]; simpl; [reflexivity|].
  now rewrite chunks_app, IH.
Qed.

Lemma windows_3d (d : ndarray) w l n :
  shape d = [w; l; n] -> windows d = map (chunks n l) (chunks (l * n) w (elems d)).
Proof. unfold windows; now intros ->. Qed.

Lemma windows_concat_axis0 l n (d0 : ndarray) (ds : list ndarray) :
  Forall (fun d => (exists w, shape d = [w; l; n]) /\ well_formed d) (d0 :: ds) ->
  windows (concat_axis0 d0 ds) = concat (map (@windows F) (d0 :: ds)).
Proof.
  intros HF.
  destruct ds as [|d1 ds]; [simpl; now rewrite app_nil_r|].
  assert (Hlen : Forall (fun d => List.length (elems d) = lead d * (l * n)) (d0 :: d1 :: ds)).
  { eapply Forall_impl; [|exact HF]. simpl; intros d [[w Hs] Hw].
    unfold well_formed, lead in *. rewrite Hs in *. now rewrite size_of_3 in Hw. }
  assert (Hwin : map (@windows F) (d0 :: d1 :: ds)
                 = map (fun d => map (chunks n l) (chunks (l * n) (lead d) (elems d)))
                     (d0 :: d1 :: ds)).
  { apply map_ext_Forall. eapply Forall_impl; [|exact HF]. simpl; intros d [[w Hs] _].
    rewrite (windows_3d _ Hs). unfold lead. now rewrite Hs. }
  rewrite Hwin.
  apply Forall_inv in HF as [[w0 Hs0] _].
  unfold concat_axis0, windows. cbn [shape elems]. rewrite Hs0. cbn [tl].
  rewrite (@chunks_stack (l * n) (d0 :: d1 :: ds) Hlen), concat_map, map_map. reflexivity.
Qed.

Lemma Forall2_nth_error_r A B (P : A -> B -> Prop) xs ys :
  Forall2 P xs ys -> forall i y, nth_error ys i = Some y ->
  exists x, nth_error xs i = Some x /\ P x y.
Proof.
  induction 1 as [|x y xs ys Hxy _ IH]; intros i y' Hi.
  - destruct i; discriminate.
  - destruct i as [|i]; simpl in *.
    + injection Hi as <-. eauto.
    + now apply IH.
Qed.

(** C6. On a batch of trajectories that the library embeds one by one, the
    windows of the Hankel data are the windows of the first trajectory's
    contexts, then those of the second, and so on; so every window is a
    window built from a single trajectory [i] of the batch, and all its
    samples are samples of that trajectory: no window mixes samples of two
    trajectories. *)
Theorem hankel_windows_within_trajectories s trajs l n c0 cs :
  consistent s -> documented_input trajs ->
  Forall2 (embeds traj_to_contexts (n_delays s + 1) (delay_interval s) l n)
    (trajectories trajs) (c0 :: cs) ->
  exists c,
    outcome (compute_hankel trajs s) = Ok tt /\
    data (final (compute_hankel trajs s)) = ContextsObj c /\
    windows (ctx_data c)
    = concat (map (fun ci => windows (ctx_data ci)) (c0 :: cs)) /\
    forall win, In win (windows (ctx_data c)) ->
      exists i traj ci,
        nth_error (trajectories trajs) i = Some traj /\
        nth_error (c0 :: cs) i = Some ci /\
        In win (windows (ctx_data ci)) /\
        forall x, In x win -> In x (samples traj).
Proof.
  intros Hcons Hdoc HF.
  unfold consistent in Hcons. rewrite <- Hcons in HF.
  assert (HF1 : Forall2 (fun t c => traj_to_contexts t (context_window_len s)
                                       (delay_interval s) = Ok c)
                  (trajectories trajs) (c0 :: cs))
    by (eapply Forall2_impl; [|exact HF]; now intros t c [H _]).
  assert (Hsh : Forall (fun d => (exists w, shape d = [w; l; n]) /\ well_formed d)
                  (map (@ctx_data F ContextMeta) (c0 :: cs))).
  { apply Forall_map. clear HF1. revert HF. generalize (c0 :: cs).
    induction (trajectories trajs) as [|t ts IH]; intros cl HF; inversion HF; subst;
      constructor; auto.
    destruct H1 as (_ & Hs & Hw & _); auto. }
  assert (Hst : stackable (ctx_data c0) (map (@ctx_data F ContextMeta) cs)).
  { right. simpl in Hsh. pose proof Hsh as Hsh'.
    apply Forall_inv in Hsh' as [[w0 Hs0] _].
    eapply Forall_impl; [|exact Hsh]. simpl; intros d [[w Hs] _].
    rewrite Hs, Hs0. split; [discriminate | reflexivity]. }
  destruct (trajectories trajs) as [|t0 ts] eqn:Htr; [inversion HF|].
  rewrite (compute_hankel_run s trajs Hdoc Htr HF1 Hst). cbn [outcome final data].
  eexists. split; [reflexivity|]. split; [reflexivity|].
  cbn [set_ctx_data ctx_data].
  assert (Hwin : windows (concat_axis0 (ctx_data c0) (map (@ctx_data F ContextMeta) cs))
                 = concat (map (fun ci => windows (ctx_data ci)) (c0 :: cs))).
  { rewrite (windows_concat_axis0 (l := l) (n := n)) by exact Hsh.
    change (ctx_data c0 :: map (@ctx_data F ContextMeta) cs)
      with (map (@ctx_data F ContextMeta) (c0 :: cs)).
    now rewrite map_map. }
  split; [exact Hwin|].
  intros win Hin. rewrite Hwin in Hin.
  apply in_concat in Hin as (ws & Hws & Hin).
  apply in_map_iff in Hws as (ci & <- & Hci).
  apply In_nth_error in Hci as [i Hi].
  destruct (Forall2_nth_error_r HF _ Hi) as (traj & Htraj & _ & _ & _ & Hdrawn).
  exists i, traj, ci. repeat split; auto.
  intros x Hx. now apply (Hdrawn win).
Qed.

(** *** The settings are invariant *)

Lemma same_settings_refl s : same_settings s s.
Proof. repeat split. Qed.

Lemma same_settings_trans s1 s2 s3 :
  same_settings s1 s2 -> same_settings s2 s3 -> same_settings s1 s3.
Proof. unfold same_settings. intuition congruence. Qed.

Lemma keeps_ret A (x : A) : keeps_settings (ret x : M F ContextMeta NystroemRest A).
Proof. intros s. apply same_settings_refl. Qed.

Lemma keeps_raise A e : keeps_settings (raise e : M F ContextMeta NystroemRest A).
Proof. intros s. apply same_settings_refl. Qed.

Lemma keeps_lift A (r : result A) :
  keeps_settings (lift r : M F ContextMeta NystroemRest A).
Proof. intros s. apply same_settings_refl. Qed.

Lemma keeps_gets A (f : KernelDMD -> A) : keeps_settings (gets f).
Proof. intros s. apply same_settings_refl. Qed.

Lemma keeps_emit ev : keeps_settings (emit ev : M F ContextMeta NystroemRest unit).
Proof. intros s. apply same_settings_refl. Qed.

Lemma keeps_modify (f : KernelDMD -> KernelDMD) :
  (forall s, same_settings s (f s)) -> keeps_settings (modify f).
Proof. intros H s. apply H. Qed.

Lemma keeps_bind A B (m : M F ContextMeta NystroemRest A)
    (k : A -> M F ContextMeta NystroemRest B) :
  keeps_settings m -> (forall x, keeps_settings (k x)) -> keeps_settings (bind m k).
Proof.
  intros Hm Hk s. unfold bind. specialize (Hm s).
  destruct (outcome (m s)) as [x|e]; simpl; [|exact Hm].
  exact (same_settings_trans Hm (Hk x (final (m s)))).
Qed.

Ltac keeps :=
  repeat match goal with
         | |- keeps_settings (ret _) => apply keeps_ret
         | |- keeps_settings (raise _) => apply keeps_raise
         | |- keeps_settings (lift _) => apply keeps_lift
         | |- keeps_settings (gets _) => apply keeps_gets
         | |- keeps_settings (emit _) => apply keeps_emit
         | |- keeps_settings (modify _) => apply keeps_modify; intros ?; repeat split
         | |- keeps_settings (bind _ _) => apply keeps_bind; [|intros ?]
         | |- keeps_settings (when ?b _) => destruct b; unfold when
         | |- keeps_settings (match ?x with _ => _ end) => destruct x
         | |- keeps_settings (let _ := _ in _) => cbv zeta
         end.

Lemma hankel_loop_keeps trajs idxs : forall c, keeps_settings (hankel_loop trajs idxs c).
Proof.
  induction idxs as [|i idxs IH]; intros c; simpl; [apply keeps_ret|].
  unfold call_traj_to_contexts. keeps. apply IH.
Qed.

Lemma compute_hankel_keeps trajs : keeps_settings (compute_hankel trajs).
Proof.
  unfold compute_hankel, call_traj_to_contexts. keeps. apply hankel_loop_keeps.
Qed.

Lemma compute_kernel_dmd_keeps lamb_arg : keeps_settings (compute_kernel_dmd lamb_arg).
Proof. unfold compute_kernel_dmd, call_fit, attr. keeps. Qed.

Lemma predict_from_keeps (test_data : pyobj) reseed :
  keeps_settings (predict_from test_data reseed).
Proof.
  unfold predict_from, call_predict. keeps. apply compute_hankel_keeps.
Qed.

(** No method changes [n_delays], [context_window_len], [delay_interval],
    [verbose] or [lamb], whether it returns or raises; so an object built by
    [__init__] keeps its window one sample longer than its number of
    delays. *)
Lemma methods_keep_settings s (d : option pyobj) (l : option F) (r : option nat) trajs :
  same_settings s (final (compute_hankel trajs s)) /\
  same_settings s (final (fit d l s)) /\
  same_settings s (final (predict d r s)).
Proof.
  split; [apply compute_hankel_keeps|]. split.
  - revert s. change (keeps_settings (fit d l)). unfold fit. keeps.
    + apply compute_hankel_keeps.
    + apply compute_kernel_dmd_keeps.
  - revert s. change (keeps_settings (predict d r)). unfold predict. keeps;
      apply predict_from_keeps.
Qed.

Lemma consistent_invariant s (d : option pyobj) (l : option F) (r : option nat) trajs :
  consistent s ->
  consistent (final (compute_hankel trajs s)) /\
  consistent (final (fit d l s)) /\
  consistent (final (predict d r s)).
Proof.
  unfold consistent. intros H.
  destruct (methods_keep_settings s d l r trajs)
    as ((H1 & H2 & _) & (H3 & H4 & _) & (H5 & H6 & _)).
  repeat split; congruence.
Qed.

(** ** Further properties of the methods *)

(** *** [compute_hankel] on the inputs it refuses *)

Lemma hankel_fold_app cwl lag ts1 ts2 : forall c,
  hankel_fold cwl lag (ts1 ++ ts2) c
  = result_bind (hankel_fold cwl lag ts1 c) (fun c' => hankel_fold cwl lag ts2 c').
Proof.
  induction ts1 as [|t ts1 IH]; intros c; simpl; [reflexivity|].
  destruct (traj_to_contexts t cwl lag) as [ct|e]; simpl; [|reflexivity].
  destruct (concatenate (ctx_data c) (ctx_data ct)) as [d|e]; simpl; [|reflexivity].
  apply IH.
Qed.

(** The outcome of [compute_hankel] on a non-empty batch, read off the
    library's answers: the first trajectory is embedded, then the loop runs
    over the others. *)
Lemma compute_hankel_outcome s trajs t0 ts :
  documented_input trajs -> trajectories trajs = t0 :: ts ->
  outcome (compute_hankel trajs s)
  = result_bind (traj_to_contexts t0 (context_window_len s) (delay_interval s))
      (fun c0 =>
         result_bind (hankel_fold (context_window_len s) (delay_interval s) ts c0)
           (fun _ => Ok tt)).
Proof.
  intros Hdoc Htr.
  assert (Hget : forall i, i < List.length (trajectories trajs) ->
            getitem (normalised trajs) i = Ok (Array (nth i (trajectories trajs) t0)))
    by (intros; now apply normalised_getitem).
  pose proof (normalised_len trajs Hdoc) as Hlen.
  rewrite Htr in Hget, Hlen; simpl in Hget, Hlen.
  assert (Hg0 : getitem (normalised trajs) 0 = Ok (Array t0)) by (apply (Hget 0); lia).
  assert (Hloop : forall c0,
            outcome (hankel_loop (normalised trajs) (seq 1 (List.length ts)) c0 s)
            = hankel_fold (context_window_len s) (delay_interval s) ts c0).
  { intros c0. apply (hankel_loop_fold (normalised trajs) ts 1 c0 s t0).
    intros j Hj. apply (Hget (S j)). lia. }
  unfold compute_hankel. fold (normalised trajs). run_step.
  rewrite Hg0; run_step.
  destruct (traj_to_contexts t0 (context_window_len s) (delay_interval s)) as [c0|e];
    run_step; [|reflexivity].
  rewrite Hlen; run_step.
  replace (S (List.length ts) - 1) with (List.length ts) by lia.
  specialize (Hloop c0).
  destruct (hankel_loop (normalised trajs) (seq 1 (List.length ts)) c0 s) as [[c1|e] f tr];
    simpl in Hloop; run_step; simpl; rewrite <- Hloop; simpl; [|reflexivity].
  now destruct (verbose f).
Qed.

Lemma concatenate_mismatch a b :
  tl (shape b) <> tl (shape a) -> concatenate a b = Raise ValueError.
Proof.
  unfold concatenate. destruct (shape a) as [|ka sa], (shape b) as [|kb sb]; auto.
  simpl. intros H. destruct (shape_eqb sa sb) eqn:E; [|reflexivity].
  apply shape_eqb_eq in E. congruence.
Qed.

Lemma tl_shape_concat_axis0 a (l : list ndarray) :
  tl (shape (concat_axis0 a l)) = tl (shape a).
Proof. now destruct l. Qed.

(** X1. On an empty batch (an empty list, or a 3-D array with no
    trajectory) [compute_hankel] raises [IndexError] at [trajs[0]]: the
    library is not called and the object is as before; [fit] called with
    such data ends the same way, before the inherited [fit] is reached. *)
Theorem compute_hankel_empty_batch s trajs (lamb_arg : option F) :
  documented_input trajs -> trajectories trajs = [] ->
  compute_hankel trajs s = mk_run (Raise IndexError) s [] /\
  fit (Some trajs) lamb_arg s = mk_run (Raise IndexError) s [].
Proof.
  intros Hdoc Htr.
  assert (H : compute_hankel trajs s = mk_run (Raise IndexError) s []).
  { unfold compute_hankel. fold (normalised trajs).
    rewrite (normalised_getitem_empty trajs Hdoc Htr). reflexivity. }
  split; [exact H|].
  unfold fit. mstep. mstep. apply bind_Raise. exact H.
Qed.

(** X2. When the library refuses a trajectory of the batch, at whatever
    position, after embedding the ones before it, [compute_hankel] ends with
    the library's exception; the contexts gathered so far are dropped and
    [self.data], like every other attribute, is as before the call. *)
Theorem compute_hankel_library_error s trajs pre t post cs e :
  documented_input trajs ->
  trajectories trajs = pre ++ t :: post ->
  Forall2 (fun t c => traj_to_contexts t (context_window_len s) (delay_interval s) = Ok c)
    pre cs ->
  (forall c0 cs', cs = c0 :: cs' ->
     stackable (ctx_data c0) (map (@ctx_data F ContextMeta) cs')) ->
  traj_to_contexts t (context_window_len s) (delay_interval s) = Raise e ->
  outcome (compute_hankel trajs s) = Raise e /\
  final (compute_hankel trajs s) = s.
Proof.
  intros Hdoc Htr HF Hst Ht.
  assert (Ho : outcome (compute_hankel trajs s) = Raise e).
  { destruct HF as [|t0 c0 pre' cs' H0 HF].
    - rewrite (@compute_hankel_outcome s _ _ _ Hdoc Htr), Ht. reflexivity.
    - rewrite (@compute_hankel_outcome s _ _ _ Hdoc Htr), H0. simpl.
      rewrite hankel_fold_app, (hankel_fold_concat HF _ (Hst _ _ eq_refl)). simpl.
      rewrite Ht. reflexivity. }
  split; [exact Ho|].
  destruct (compute_hankel_frame trajs s) as (_ & Hraise & _).
  exact (Hraise _ Ho).
Qed.

(** X3. Trajectories of one batch must have the same dimension: when the
    contexts of a trajectory differ from those of the first in an axis after
    the first, [np.concatenate] raises and [compute_hankel] ends with
    [ValueError], the object as before the call.  (Their numbers of time
    steps, the first axis of the contexts, may differ.) *)
Theorem compute_hankel_dimension_mismatch s trajs t0 pre t post c0 cs c :
  documented_input trajs ->
  trajectories trajs = (t0 :: pre) ++ t :: post ->
  Forall2 (fun t c => traj_to_contexts t (context_window_len s) (delay_interval s) = Ok c)
    (t0 :: pre) (c0 :: cs) ->
  stackable (ctx_data c0) (map (@ctx_data F ContextMeta) cs) ->
  traj_to_contexts t (context_window_len s) (delay_interval s) = Ok c ->
  tl (shape (ctx_data c)) <> tl (shape (ctx_data c0)) ->
  outcome (compute_hankel trajs s) = Raise ValueError /\
  final (compute_hankel trajs s) = s.
Proof.
  intros Hdoc Htr HF Hst Ht Hne.
  apply Forall2_cons_iff in HF as [H0 HF].
  assert (Ho : outcome (compute_hankel trajs s) = Raise ValueError).
  { rewrite (@compute_hankel_outcome s _ _ _ Hdoc Htr), H0. simpl.
    rewrite hankel_fold_app, (hankel_fold_concat HF _ Hst). simpl.
    rewrite Ht. simpl. rewrite concatenate_mismatch; [reflexivity|].
    now rewrite tl_shape_concat_axis0. }
  split; [exact Ho|].
  destruct (compute_hankel_frame trajs s) as (_ & Hraise & _).
  exact (Hraise _ Ho).
Qed.

(** X4. A [compute_hankel] that returns has called the library once per
    trajectory, in input order, each time with window [context_window_len]
    and lag [delay_interval], and has printed its message when [verbose] is
    set.  The object it stores is the one the library returned for the first
    trajectory, with its data array replaced: whatever else that object
    carries (the index map among it) still describes the first trajectory
    alone. *)
Theorem compute_hankel_library_calls s trajs c0 cs :
  documented_input trajs ->
  Forall2 (fun t c => traj_to_contexts t (context_window_len s) (delay_interval s) = Ok c)
    (trajectories trajs) (c0 :: cs) ->
  stackable (ctx_data c0) (map (@ctx_data F ContextMeta) cs) ->
  calls (compute_hankel trajs s)
  = map (fun t => CallTrajToContexts t (context_window_len s) (delay_interval s))
      (trajectories trajs)
    ++ (if verbose s then [PrintLine "Hankel matrix computed"] else []) /\
  exists c,
    data (final (compute_hankel trajs s)) = ContextsObj c /\
    ctx_meta c = ctx_meta c0.
Proof.
  intros Hdoc HF Hst.
  destruct (trajectories trajs) as [|t0 ts] eqn:Htr; [inversion HF|].
  rewrite (@compute_hankel_run s _ _ _ _ _ Hdoc Htr HF Hst). simpl.
  split; [reflexivity|]. eexists; split; reflexivity.
Qed.

(** *** The settings over the life of an object *)

Local Abbreviation method_call := (method_call F ContextMeta).
Local Abbreviation object_after :=
  (object_after zero float64 traj_to_contexts dataset_getitem dataset_len
     traj_to_contexts_of nystroem_fit nystroem_predict matmul transpose true_divide).
Local Abbreviation session :=
  (session zero float64 traj_to_contexts dataset_getitem dataset_len
     traj_to_contexts_of nystroem_fit nystroem_predict matmul transpose true_divide).

Lemma session_keeps_settings (cs : list method_call) :
  forall s, same_settings s (session cs s).
Proof.
  induction cs as [|c cs IH]; intros s; [apply same_settings_refl|].
  simpl. apply same_settings_trans with (s2 := object_after c s); [|apply IH].
  destruct c as [trajs|l|d l|d r]; simpl.
  - apply compute_hankel_keeps.
  - apply compute_kernel_dmd_keeps.
  - now destruct (@methods_keep_settings s d l None (TrajList [])) as (_ & H & _).
  - now destruct (@methods_keep_settings s d None r (TrajList [])) as (_ & _ & H).
Qed.

(** X5. The settings are fixed by [__init__] for the life of the object:
    after any sequence of calls of [compute_hankel], [compute_kernel_dmd],
    [fit] and [predict], with any arguments and whether they return or
    raise, [n_delays], [delay_interval] and [verbose] are the arguments
    [__init__] was given, [context_window_len] is [n_delays + 1], and [lamb]
    is the argument given, zero when it was [None] (a [lamb] passed to [fit]
    is not kept). *)
Theorem settings_fixed_by_init (Kernel Solver Centers : Type)
    (nystroem_init : Kernel -> bool -> nat -> option F -> Solver -> Centers ->
                     NystroemKernel)
    (data0 : pyobj) (n_delays0 : nat) (kernel : Kernel) (num_centers : Centers)
    (delay_interval0 rank0 : nat) (reduced_rank_reg : bool) (lamb0 : option F)
    (verbose0 : bool) (svd_solver : Solver) (cs : list method_call) :
  let s := session cs
             (init zero nystroem_init data0 n_delays0 kernel num_centers
                delay_interval0 rank0 reduced_rank_reg lamb0 verbose0 svd_solver) in
  n_delays s = n_delays0 /\
  context_window_len s = n_delays0 + 1 /\
  delay_interval s = delay_interval0 /\
  verbose s = verbose0 /\
  lamb s = match lamb0 with None => zero | Some l => l end.
Proof.
  intros s. subst s.
  exact (session_keeps_settings cs
           (init zero nystroem_init data0 n_delays0 kernel num_centers
              delay_interval0 rank0 reduced_rank_reg lamb0 verbose0 svd_solver)).
Qed.

(** *** How often the library's [fit] and [predict] are called *)

Lemma at_most_bind_l A B (m : M F ContextMeta NystroemRest A)
    (k : A -> M F ContextMeta NystroemRest B) nf np :
  makes_at_most 0 0 m -> (forall x, makes_at_most nf np (k x)) ->
  makes_at_most nf np (bind m k).
Proof.
  intros Hm Hk s. unfold bind. specialize (Hm s).
  destruct (outcome (m s)) as [x|e]; simpl; [|lia].
  specialize (Hk x (final (m s))). rewrite fit_calls_app, predict_calls_app. lia.
Qed.

Lemma at_most_bind_r A B (m : M F ContextMeta NystroemRest A)
    (k : A -> M F ContextMeta NystroemRest B) nf np :
  makes_at_most nf np m -> (forall x, makes_at_most 0 0 (k x)) ->
  makes_at_most nf np (bind m k).
Proof.
  intros Hm Hk s. unfold bind. specialize (Hm s).
  destruct (outcome (m s)) as [x|e]; simpl; [|lia].
  specialize (Hk x (final (m s))). rewrite fit_calls_app, predict_calls_app. lia.
Qed.

Lemma at_most_quiet A (m : M F ContextMeta NystroemRest A) nf np :
  (forall s, fit_calls (calls (m s)) = 0 /\ predict_calls (calls (m s)) = 0) ->
  makes_at_most nf np m.
Proof. intros H s. destruct (H s). lia. Qed.

Lemma at_most_compute_hankel trajs nf np : makes_at_most nf np (compute_hankel trajs).
Proof.
  apply at_most_quiet. intros s.
  now destruct (compute_hankel_frame trajs s) as (_ & _ & H1 & H2).
Qed.

Lemma at_most_call_predict d nf np :
  makes_at_most nf (S np) (call_predict nystroem_predict d).
Proof.
  intros s. unfold call_predict. run_step. simpl.
  destruct (nystroem_predict (super s) d); simpl; unfold fit_calls, predict_calls; simpl; lia.
Qed.

Lemma at_most_compute_kernel_dmd lamb_arg nf np :
  makes_at_most (S nf) np (compute_kernel_dmd lamb_arg).
Proof.
  intros s.
  destruct (compute_kernel_dmd_run s lamb_arg) as ((rest & -> & Hf & Hp) & _).
  change (CallFit (data s) :: rest) with ([CallFit (data s)] ++ rest).
  rewrite fit_calls_app, predict_calls_app, Hf, Hp.
  unfold fit_calls, predict_calls; simpl; lia.
Qed.

Ltac budget :=
  repeat match goal with
         | |- makes_at_most _ _ (bind (call_predict _ _) _) =>
             apply at_most_bind_r; [apply at_most_call_predict | intros ?]
         | |- makes_at_most _ _ (bind _ _) => apply at_most_bind_l; [|intros ?]
         | |- makes_at_most _ _ (match ?x with _ => _ end) => destruct x
         | |- makes_at_most _ _ (let _ := _ in _) => cbv zeta
         | |- makes_at_most _ _ _ =>
             first [ apply at_most_compute_hankel
                   | apply at_most_compute_kernel_dmd
                   | apply at_most_quiet; intros ?; split; reflexivity ]
         end.

(** X6. The calls of the library's [fit] and [predict], whatever the
    arguments and whether the method returns or raises: [compute_hankel]
    makes none; [compute_kernel_dmd] calls the inherited [fit] exactly once
    and never [predict]; [fit] calls the inherited [fit] at most once and
    never [predict]; [predict] never calls the inherited [fit], so it cannot
    refit the model, and calls the inherited [predict] at most once. *)
Theorem library_call_budget s trajs (data_arg test_data : option pyobj)
    (lamb_arg : option F) (reseed : option nat) :
  (fit_calls (calls (compute_hankel trajs s)) = 0 /\
   predict_calls (calls (compute_hankel trajs s)) = 0) /\
  (fit_calls (calls (compute_kernel_dmd lamb_arg s)) = 1 /\
   predict_calls (calls (compute_kernel_dmd lamb_arg s)) = 0) /\
  (fit_calls (calls (fit data_arg lamb_arg s)) <= 1 /\
   predict_calls (calls (fit data_arg lamb_arg s)) = 0) /\
  (fit_calls (calls (predict test_data reseed s)) = 0 /\
   predict_calls (calls (predict test_data reseed s)) <= 1).
Proof.
  assert (Hfit : makes_at_most 1 0 (fit data_arg lamb_arg))
    by (unfold fit; budget).
  assert (Hpred : makes_at_most 0 1 (predict test_data reseed))
    by (unfold predict, predict_from; budget).
  destruct (compute_hankel_frame trajs s) as (_ & _ & H1 & H2).
  destruct (compute_kernel_dmd_run s lamb_arg) as ((rest & Hc & Hf & Hp) & _).
  destruct (Hfit s) as [H3 H4]. destruct (Hpred s) as [H5 H6].
  repeat split; try assumption; try lia.
  - rewrite Hc. change (CallFit (data s) :: rest) with ([CallFit (data s)] ++ rest).
    rewrite fit_calls_app, Hf. reflexivity.
  - rewrite Hc. change (CallFit (data s) :: rest) with ([CallFit (data s)] ++ rest).
    rewrite predict_calls_app, Hp. reflexivity.
Qed.

(** *** What the methods read of [self.data], and what they change *)

Lemma same_but_data_refl s : same_but_data s s.
Proof. now destruct s. Qed.

Lemma same_but_data_trans s1 s2 s3 :
  same_but_data s1 s2 -> same_but_data s2 s3 -> same_but_data s1 s3.
Proof. unfold same_but_data. intros -> ->. reflexivity. Qed.

Lemma set_data_same s1 s2 d : same_but_data s1 s2 -> set_data d s1 = set_data d s2.
Proof. unfold same_but_data. intros ->. reflexivity. Qed.

Lemma blind_quiet A (m : M F ContextMeta NystroemRest A) :
  (forall s1 s2, same_but_data s1 s2 ->
     outcome (m s1) = outcome (m s2) /\ calls (m s1) = calls (m s2)) ->
  (forall s, final (m s) = s) ->
  blind_to_data m.
Proof. intros H Hf s1 s2 Hs. destruct (H s1 s2 Hs). auto. Qed.

Lemma blind_gets A (f : KernelDMD -> A) :
  (forall s d, f (set_data d s) = f s) -> blind_to_data (gets f).
Proof.
  intros Hf. apply blind_quiet; [|reflexivity].
  intros s1 s2 Hs. rewrite Hs. simpl. now rewrite Hf.
Qed.

Lemma blind_bind A B (m : M F ContextMeta NystroemRest A)
    (k : A -> M F ContextMeta NystroemRest B) :
  blind_to_data m -> (forall x, blind_to_data (k x)) -> blind_to_data (bind m k).
Proof.
  intros Hm Hk s1 s2 Hs. destruct (Hm s1 s2 Hs) as (Ho & Hc & H1 & H2).
  unfold bind. rewrite Ho, Hc, H1, H2.
  destruct (outcome (m s2)) as [x|e]; simpl; [|auto].
  destruct (Hk x s1 s2 Hs) as (Ho' & Hc' & H1' & H2').
  rewrite Ho', Hc'. auto.
Qed.

Lemma replaces_bind_before A B (m : M F ContextMeta NystroemRest A)
    (k : A -> M F ContextMeta NystroemRest B) :
  blind_to_data m -> (forall x, replaces_data (k x)) -> replaces_data (bind m k).
Proof.
  intros Hm Hk s1 s2 Hs. destruct (Hm s1 s2 Hs) as (Ho & Hc & H1 & H2).
  unfold bind. rewrite Ho, Hc, H1, H2.
  destruct (outcome (m s2)) as [x|e]; simpl.
  - destruct (Hk x s1 s2 Hs) as (Ho' & Hc' & Hf' & Heq').
    rewrite Ho', Hc'. auto.
  - repeat split; auto. discriminate.
Qed.

Lemma replaces_bind_after A B (m : M F ContextMeta NystroemRest A)
    (k : A -> M F ContextMeta NystroemRest B) :
  replaces_data m -> replaces_data (bind m k).
Proof.
  intros Hm s1 s2 Hs. destruct (Hm s1 s2 Hs) as (Ho & Hc & Hf & Heq).
  unfold bind. rewrite Ho, Hc.
  destruct (outcome (m s2)) as [x|e]; simpl.
  - rewrite (Heq x eq_refl). auto.
  - repeat split; auto. discriminate.
Qed.

Lemma replaces_set_data B d (k : unit -> M F ContextMeta NystroemRest B) :
  replaces_data (bind (modify (set_data d)) k).
Proof.
  intros s1 s2 Hs. rewrite !bind_modify, (set_data_same d Hs). auto.
Qed.

Ltac blind :=
  repeat match goal with
         | |- blind_to_data (bind _ _) => apply blind_bind; [|intros ?]
         | |- blind_to_data (gets _) => apply blind_gets; reflexivity
         | |- blind_to_data (match ?x with _ => _ end) => destruct x
         | |- blind_to_data (let _ := _ in _) => cbv zeta
         | |- blind_to_data _ =>
             apply blind_quiet; [intros ? ? ?; split; reflexivity | reflexivity]
         end.

Lemma hankel_loop_blind trajs idxs : forall c, blind_to_data (hankel_loop trajs idxs c).
Proof.
  induction idxs as [|i idxs IH]; intros c; simpl; [blind|].
  unfold call_traj_to_contexts. blind. apply IH.
Qed.

Ltac replaces :=
  repeat match goal with
         | |- replaces_data (bind (modify (set_data _)) _) => apply replaces_set_data
         | |- replaces_data (bind _ _) => apply replaces_bind_before; [blind|intros ?]
         | |- replaces_data (let _ := _ in _) => cbv zeta
         end.

Lemma compute_hankel_replaces trajs : replaces_data (compute_hankel trajs).
Proof.
  unfold compute_hankel, call_traj_to_contexts. replaces. apply hankel_loop_blind.
Qed.

Lemma predict_from_replaces (test_data : pyobj) reseed :
  replaces_data (predict_from test_data reseed).
Proof.
  unfold predict_from.
  do 4 (apply replaces_bind_before; [blind|intros ?]).
  apply replaces_bind_after, compute_hankel_replaces.
Qed.

Lemma fit_replaces (data_arg : pyobj) (lamb_arg : option F) :
  replaces_data (fit (Some data_arg) lamb_arg).
Proof.
  intros s1 s2 Hs. unfold fit. rewrite !bind_gets. cbv zeta.
  replace (lamb s1) with (lamb s2) by (rewrite Hs; reflexivity).
  exact (@replaces_bind_after _ _ _ _ (compute_hankel_replaces data_arg) s1 s2 Hs).
Qed.

Lemma predict_replaces (test_data : pyobj) (reseed : option nat) :
  replaces_data (predict (Some test_data) reseed).
Proof.
  intros s1 s2 Hs. unfold predict. rewrite !bind_gets. cbv zeta.
  revert s1 s2 Hs.
  change (replaces_data
            (bind (match reseed with
                   | Some _ => raise NotImplementedError
                   | None => ret 1
                   end) (fun r => predict_from test_data r))).
  destruct reseed.
  - intros s1 s2 Hs. repeat split; auto. discriminate.
  - apply replaces_bind_before; [blind|]. intros r. apply predict_from_replaces.
Qed.

(** X7. What [self.data] holds when a method is called with its data given
    does not matter: on two objects that differ in [self.data] only,
    [compute_hankel(trajs)], [fit(data, lamb)] and [predict(test_data,
    reseed)] have the same outcome and make the same calls, in the same
    order; a run that returns leaves the same object in both cases, and one
    that raises has either left the same object or changed nothing.  So the
    data given to [__init__], or left by an earlier [fit] or [predict], has
    no part in a prediction on given test data. *)
Theorem stored_data_is_not_read trajs (data_arg test_data : pyobj)
    (lamb_arg : option F) (reseed : option nat) :
  replaces_data (compute_hankel trajs) /\
  replaces_data (fit (Some data_arg) lamb_arg) /\
  replaces_data (predict (Some test_data) reseed).
Proof.
  split; [apply compute_hankel_replaces|].
  split; [apply fit_replaces | apply predict_replaces].
Qed.

Lemma only_data_quiet A (m : M F ContextMeta NystroemRest A) :
  (forall s, final (m s) = s) -> changes_data_only m.
Proof. intros H s. rewrite H. apply same_but_data_refl. Qed.

Lemma only_data_bind A B (m : M F ContextMeta NystroemRest A)
    (k : A -> M F ContextMeta NystroemRest B) :
  changes_data_only m -> (forall x, changes_data_only (k x)) ->
  changes_data_only (bind m k).
Proof.
  intros Hm Hk s. unfold bind. specialize (Hm s).
  destruct (outcome (m s)) as [x|e]; simpl; [|exact Hm].
  exact (same_but_data_trans (Hk x (final (m s))) Hm).
Qed.

Lemma compute_hankel_only_data trajs : changes_data_only (compute_hankel trajs).
Proof.
  intros s. destruct (compute_hankel_frame trajs s) as (HOk & HRaise & _).
  destruct (outcome (compute_hankel trajs s)) as [[]|e].
  - destruct (HOk eq_refl) as [c ->]. reflexivity.
  - rewrite (HRaise e eq_refl). apply same_but_data_refl.
Qed.

Ltac only_data :=
  repeat match goal with
         | |- changes_data_only (bind _ _) => apply only_data_bind; [|intros ?]
         | |- changes_data_only (match ?x with _ => _ end) => destruct x
         | |- changes_data_only (let _ := _ in _) => cbv zeta
         | |- changes_data_only _ =>
             first [ apply compute_hankel_only_data
                   | apply only_data_quiet; reflexivity ]
         end.

Lemma predict_only_data (test_data : option pyobj) (reseed : option nat) :
  changes_data_only (predict test_data reseed).
Proof. unfold predict, predict_from, call_predict. only_data. Qed.

(** X8. [compute_hankel] and [predict] change [self.data] and nothing else,
    whatever their arguments and whether they return or raise: the base
    attributes, the fitted factors among them, and [A_v] are those of before
    the call.  Neither method can undo or alter a fit. *)
Theorem predict_changes_data_only s trajs (test_data : option pyobj)
    (reseed : option nat) :
  let h := final (compute_hankel trajs s) in
  let p := final (predict test_data reseed s) in
  (h = set_data (data h) s /\ super h = super s /\ A_v h = A_v s) /\
  (p = set_data (data p) s /\ super p = super s /\ A_v p = A_v s).
Proof.
  intros h p.
  pose proof (compute_hankel_only_data trajs s) as Hh.
  pose proof (predict_only_data test_data reseed s) as Hp.
  fold h in Hh. fold p in Hp. unfold same_but_data in Hh, Hp.
  split; (split; [assumption|]).
  - rewrite Hh. split; reflexivity.
  - rewrite Hp. split; reflexivity.
Qed.

(** X9. [predict] and [compute_hankel] can be repeated: called again with
    the same arguments on the object as the first call left it, each runs
    exactly as the first time (same outcome, same calls of the library) and
    leaves the object as the first call did. *)
Theorem predict_repeatable s trajs (test_data : pyobj) (reseed : option nat) :
  compute_hankel trajs (final (compute_hankel trajs s)) = compute_hankel trajs s /\
  predict (Some test_data) reseed (final (predict (Some test_data) reseed s))
  = predict (Some test_data) reseed s.
Proof.
  assert (H : forall A (m : M F ContextMeta NystroemRest A),
            replaces_data m -> changes_data_only m -> m (final (m s)) = m s).
  { intros A m Hr Hc.
    destruct (Hr (final (m s)) s (Hc s)) as (Ho & Hcalls & Hf & _).
    set (r2 := m (final (m s))) in *. clearbody r2.
    set (r1 := m s) in *. clearbody r1.
    destruct r1, r2; simpl in *.
    destruct Hf as [Hf|[Hf _]]; subst; reflexivity. }
  split; apply H.
  - apply compute_hankel_replaces.
  - apply compute_hankel_only_data.
  - apply predict_replaces.
  - apply predict_only_data.
Qed.

(** *** The regularisation passed to [fit] *)

Lemma fit_keeps (data_arg : option pyobj) (lamb_arg : option F) :
  keeps_settings (fit data_arg lamb_arg).
Proof.
  unfold fit. keeps; [apply compute_hankel_keeps | apply compute_kernel_dmd_keeps].
Qed.

(** A [lamb] passed to [fit] is used for that call only: [self.lamb]
    keeps the value [__init__] stored, and a later [fit] without [lamb]
    runs as a [fit] with that stored value, not with the one last passed. *)
Lemma fit_lamb_not_kept s (data1 data2 : option pyobj) (lamb1 : F) :
  let s' := final (fit data1 (Some lamb1) s) in
  lamb s' = lamb s /\
  fit data2 None s' = fit data2 (Some (lamb s)) s'.
Proof.
  intros s'.
  assert (Hl : lamb s' = lamb s) by apply (fit_keeps data1 (Some lamb1) s).
  split; [exact Hl|].
  unfold fit. rewrite !bind_gets. cbv zeta. rewrite Hl. reflexivity.
Qed.

(** *** [predict]: test data it refuses, failures, shapes *)

Lemma slice_axis1_low_rank a lo hi :
  ndim a < 2 -> slice_axis1 a lo hi = Raise IndexError.
Proof.
  unfold ndim, slice_axis1. destruct (shape a) as [|k [|t sh]]; simpl; auto; lia.
Qed.

(** X10. Test data with fewer than two axes (a scalar, a 1-D series, and
    the empty list, which [np.array] turns into an empty 1-D array) is
    refused: [predict] raises [IndexError] at [test_data[:, 0:n_delays]],
    before it builds any contexts; the library is not called and the object
    is as before. *)
Theorem predict_needs_two_axes s (test_data : pyobj) a :
  as_array test_data = Ok a -> ndim a < 2 ->
  predict (Some test_data) None s = mk_run (Raise IndexError) s [].
Proof.
  intros Ha Hn. rewrite predict_without_reseed. unfold predict_from.
  rewrite Ha. mstep. cbv zeta.
  replace (ndim a =? 2) with false by (symmetry; apply Nat.eqb_neq; lia).
  mstep. rewrite slice_axis1_low_rank by assumption. reflexivity.
Qed.

Lemma slice_then_assign a n :
  2 <= ndim a ->
  exists head pd,
    slice_axis1 a 0 (Some n) = Ok head /\
    set_slice_axis1 (zeros (float64 zero) (shape a)) 0 (Some n) (astype float64 head)
    = Ok pd.
Proof.
  unfold ndim, slice_axis1, set_slice_axis1, zeros, astype.
  destruct (shape a) as [|k [|t sh]]; simpl List.length; try lia. intros _.
  eexists; eexists; split; [reflexivity|].
  cbn [shape]. rewrite !Nat.eqb_refl, shape_eqb_refl. reflexivity.
Qed.

Lemma bind_unchanged A B (m : M F ContextMeta NystroemRest A)
    (k : A -> M F ContextMeta NystroemRest B) :
  (forall s, final (m s) = s) -> (forall x s, final (k x s) = s) ->
  forall s, final (bind m k s) = s.
Proof.
  intros Hm Hk s. unfold bind. pose proof (Hm s) as H.
  destruct (outcome (m s)) as [x|e]; simpl; [|exact H].
  now rewrite Hk.
Qed.

(** X11. Once the contexts of the test data are built, [predict] has
    replaced [self.data], whatever happens next: for test data with at least
    two axes on which [compute_hankel] returns, the object [predict] leaves
    is the one [compute_hankel] leaves, also when the library's [predict]
    raises or returns an array that cannot be reshaped.  A [predict] that
    fails at that stage is not undone: the contexts of the test data stay
    in [self.data]. *)
Theorem predict_leaves_test_contexts s (test_data : pyobj) a0 :
  as_array test_data = Ok a0 -> 2 <= ndim a0 ->
  outcome (compute_hankel (Array a0) s) = Ok tt ->
  final (predict (Some test_data) None s) = final (compute_hankel (Array a0) s) /\
  exists c, data (final (predict (Some test_data) None s)) = ContextsObj c.
Proof.
  intros Ha Hn Hok.
  assert (Hf : final (predict (Some test_data) None s)
               = final (compute_hankel (Array a0) s)).
  { rewrite predict_without_reseed. unfold predict_from.
    rewrite Ha. mstep. fold (batch_of a0).
    rewrite <- (compute_hankel_batch_of s a0) in Hok |- *.
    assert (Hn' : 2 <= ndim (batch_of a0))
      by (unfold batch_of; destruct (ndim a0 =? 2); [rewrite ndim_newaxis|]; lia).
    set (a := batch_of a0) in *. mstep.
    destruct (slice_then_assign a (n_delays s) Hn') as (head & pd1 & Eh & Ep).
    rewrite Eh. mstep. rewrite Ep. mstep.
    set (h := compute_hankel (Array a) s) in *.
    assert (Hh : compute_hankel (Array a) s = mk_run (Ok tt) (final h) (calls h))
      by (fold h; rewrite (run_eta h), Hok; reflexivity).
    rewrite bind_run_Ok with (1 := Hh). unfold prepend. cbn [final].
    generalize (final h). unfold call_predict.
    repeat (apply bind_unchanged; [|intros ?]); reflexivity. }
  split; [exact Hf|].
  rewrite Hf. destruct (compute_hankel_frame (Array a0) s) as (H & _).
  destruct (H Hok) as [c ->]. now exists c.
Qed.

Lemma filter_id_iff A (f : A -> bool) (l : list A) :
  filter f l = l <-> Forall (fun x => f x = true) l.
Proof.
  split.
  - induction l as [|x l IH]; simpl; [constructor|].
    destruct (f x) eqn:E.
    + intros [= H]. constructor; auto.
    + intros H. pose proof (filter_length_le f l) as Hle.
      rewrite H in Hle. simpl in Hle. lia.
  - intros H. apply forallb_filter_id. now apply forallb_forall, Forall_forall.
Qed.

(** X12. When the shape of the predictions is the shape of the test data:
    a [predict] that returns gives an array of the shape of [test_data]
    exactly when no axis of [test_data] has length one.  A single
    trajectory given as a batch of one, or a series of dimension one, comes
    back with fewer axes than it was given. *)
Theorem predict_shape_preserved_iff s (test_data : pyobj) p a0 :
  outcome (predict (Some test_data) None s) = Ok p ->
  as_array test_data = Ok a0 ->
  (shape p = shape a0 <-> Forall (fun d => d <> 1) (shape a0)).
Proof.
  intros H Ha. rewrite (predict_shape _ _ H Ha).
  assert (E : filter (fun d => negb (d =? 1)) (shape (batch_of a0))
              = filter (fun d => negb (d =? 1)) (shape a0))
    by (unfold batch_of; destruct (ndim a0 =? 2); reflexivity).
  rewrite E, filter_id_iff.
  split; apply Forall_impl; intros d Hd.
  - apply negb_true_iff, Nat.eqb_neq in Hd. exact Hd.
  - apply negb_true_iff, Nat.eqb_neq. exact Hd.
Qed.

(** *** C5: what is done to the arguments *)

Lemma predict_from_body s (test_data : pyobj) reseed a0 :
  as_array test_data = Ok a0 ->
  predict_from test_data reseed s = predict_body (batch_of a0) s.
Proof.
  intros Ha. unfold predict_from, predict_body. rewrite Ha. mstep. reflexivity.
Qed.

(** An exception of the inherited [predict] is the exception of
    [predict]. *)
Lemma predict_library_error s a c e :
  2 <= ndim a ->
  outcome (compute_hankel (Array a) s) = Ok tt ->
  data (final (compute_hankel (Array a) s)) = ContextsObj c ->
  nystroem_predict (super s) (ContextsObj c) = Raise e ->
  outcome (predict (Some (Array a)) None s) = Raise e.
Proof.
  intros Hn Hok Hd He.
  rewrite predict_without_reseed, (@predict_from_body s (Array a) 1 a eq_refl).
  unfold predict_body.
  rewrite <- (compute_hankel_batch_of s a) in Hok, Hd.
  assert (Hn' : 2 <= ndim (batch_of a))
    by (unfold batch_of; destruct (ndim a =? 2); [rewrite ndim_newaxis|]; lia).
  set (a' := batch_of a) in *. cbv zeta. mstep.
  destruct (slice_then_assign a' (n_delays s) Hn') as (head & pd1 & Eh & Ep).
  rewrite Eh. mstep. rewrite Ep. mstep.
  destruct (compute_hankel_frame (Array a') s) as (HOk & _).
  destruct (HOk Hok) as [c' Hc']. rewrite Hc' in Hd. simpl in Hd. injection Hd as ->.
  assert (Hh : compute_hankel (Array a') s
               = mk_run (Ok tt) (set_data (ContextsObj c) s)
                   (calls (compute_hankel (Array a') s)))
    by (rewrite (run_eta (compute_hankel (Array a') s)) at 1; now rewrite Hok, Hc').
  rewrite bind_run_Ok with (1 := Hh). mstep.
  change (data (set_data (ContextsObj c) s)) with (ContextsObj c : pyobj).
  rewrite (@bind_call_predict_Raise _ _ _ _ (set_data (ContextsObj c) s) He).
  reflexivity.
Qed.


(** *** C8: the samples at the head of the predictions *)

Lemma lead_concat_axis0 (d : ndarray) (ds : list ndarray) :
  lead (concat_axis0 d ds) = list_sum (map (@lead F) (d :: ds)).
Proof. destruct ds; simpl; [lia | reflexivity]. Qed.

Lemma list_sum_const (xs : list nat) m :
  Forall (fun x => x = m) xs -> list_sum xs = List.length xs * m.
Proof. induction 1 as [|x xs -> _ IH]; simpl; [reflexivity | now rewrite IH]. Qed.

Lemma Forall2_Forall_r A B (P : A -> B -> Prop) (Q : B -> Prop) xs ys :
  Forall2 P xs ys -> (forall x y, In x xs -> P x y -> Q y) -> Forall Q ys.
Proof.
  induction 1 as [|x y xs ys Hxy _ IH]; intros H; constructor.
  - apply (H x); [now left | assumption].
  - apply IH. intros x' y' Hin. apply H. now right.
Qed.

(** The batch [predict] works on, as trajectories. *)
Lemma trajectories_batch a0 k t n :
  shape (batch_of a0) = [k; t; n] -> well_formed (batch_of a0) ->
  documented_input (Array a0 : pyobj) /\
  List.length (trajectories (Array a0 : pyobj)) = k.
Proof.
  unfold batch_of, documented_input, trajectories.
  destruct (ndim a0 =? 2) eqn:E.
  - unfold newaxis, well_formed; simpl. intros [= <- Hs] Hw.
    apply Nat.eqb_eq in E. split; [|reflexivity].
    split; [now left|]. unfold well_formed. rewrite Hw. lia.
  - intros Hs Hw. split; [|now apply items_length with (sh := [t; n])].
    split; [right; unfold ndim; now rewrite Hs | assumption].
Qed.


(** *** A list of trajectories and the array that stacks them *)

Lemma bind_ext A B (m : M F ContextMeta NystroemRest A)
    (k1 k2 : A -> M F ContextMeta NystroemRest B) s :
  (forall x s', k1 x s' = k2 x s') -> bind m k1 s = bind m k2 s.
Proof.
  intros H. unfold bind. destruct (outcome (m s)); [now rewrite H | reflexivity].
Qed.

Lemma bind_ext_l A B (m1 m2 : M F ContextMeta NystroemRest A)
    (k : A -> M F ContextMeta NystroemRest B) s :
  m1 s = m2 s -> bind m1 k s = bind m2 k s.
Proof. unfold bind. now intros ->. Qed.

Lemma hankel_loop_ext trajs1 trajs2 idxs :
  (forall i, getitem trajs1 i = getitem trajs2 i) ->
  forall c s, hankel_loop trajs1 idxs c s = hankel_loop trajs2 idxs c s.
Proof.
  intros Hg. induction idxs as [|i idxs IH]; intros c s; simpl; [reflexivity|].
  rewrite Hg. repeat (apply bind_ext; intros ? ?). apply IH.
Qed.

(** [compute_hankel] sees its input through [trajs[i]] and [len(trajs)]
    alone. *)
Lemma compute_hankel_ext trajs1 trajs2 s :
  (forall i, getitem (normalised trajs1) i = getitem (normalised trajs2) i) ->
  len (normalised trajs1) = len (normalised trajs2) ->
  compute_hankel trajs1 s = compute_hankel trajs2 s.
Proof.
  intros Hg Hl. unfold compute_hankel.
  fold (normalised trajs1). fold (normalised trajs2).
  rewrite Hg, Hl. repeat (apply bind_ext; intros ? ?).
  apply bind_ext_l. apply hankel_loop_ext, Hg.
Qed.

Lemma getitem_stacked (l : list ndarray) a :
  Forall (fun t => ndim t = 2 /\ well_formed t) l -> np_array l = Ok a ->
  (forall i, getitem (normalised (TrajList l : pyobj)) i
             = getitem (normalised (Array a : pyobj)) i) /\
  len (normalised (TrajList l : pyobj)) = len (normalised (Array a : pyobj)).
Proof.
  intros HF. destruct l as [|t0 l'].
  - intros [= <-]. split; [|reflexivity]. intros [|i]; reflexivity.
  - unfold np_array. set (l := t0 :: l') in *.
    destruct (forallb (fun b => shape_eqb (shape t0) (shape b)) l) eqn:E;
      [|discriminate].
    intros Ha.
    assert (Ea : a = mk_nd (List.length l :: shape t0) (concat (map (@elems F) l)))
      by congruence.
    subst a. clear Ha.
    assert (Hsh : forall t, In t l -> shape t = shape t0).
    { intros t Ht. rewrite forallb_forall in E. symmetry. now apply shape_eqb_eq, E. }
    assert (Hlen : Forall (fun b => List.length b = size_of (shape t0)) (map (@elems F) l)).
    { apply Forall_forall. intros b Hb. apply in_map_iff in Hb as (t & <- & Ht).
      rewrite Forall_forall in HF. destruct (HF t Ht) as [_ Hwf].
      unfold well_formed in Hwf. now rewrite Hwf, (Hsh t Ht). }
    assert (Hnd : (ndim (mk_nd (List.length l :: shape t0) (concat (map (@elems F) l))) =? 2)
                  = false).
    { apply Forall_inv in HF as [Hn _]. unfold ndim in *. simpl. now rewrite Hn. }
    clearbody l. unfold normalised. rewrite Hnd. split; [|reflexivity].
    intros i. simpl. unfold nd_item. simpl.
    destruct (nth_error l i) as [ti|] eqn:Ei.
    + assert (Hi : i < List.length l) by (apply nth_error_Some; congruence).
      apply Nat.ltb_lt in Hi as Hb. rewrite Hb. f_equal.
      replace (i * size_of (shape t0)) with (i * size_of (shape t0) + 0) by lia.
      rewrite (@firstn_skipn_concat_blocks F (size_of (shape t0)) (size_of (shape t0)))
        by (auto; rewrite ?length_map; lia).
      simpl skipn.
      assert (Hti : nth i (map (@elems F) l) [] = elems ti).
      { change (@nil F) with (elems (mk_nd [] (@nil F))).
        rewrite map_nth. f_equal. now apply nth_error_nth. }
      rewrite Hti. apply nth_error_In in Ei.
      rewrite firstn_all2.
      * rewrite <- (Hsh ti Ei). now destruct ti.
      * rewrite Forall_forall in Hlen. rewrite (Hlen (elems ti)); [lia|].
        now apply in_map.
    + apply nth_error_None in Ei. apply Nat.ltb_ge in Ei. now rewrite Ei.
Qed.

(** X14. A list of 2-D trajectories of one shape and the 3-D array that
    stacks them ([np.array] of the list) are the same input: each of
    [compute_hankel], [fit] and [predict] runs on the one exactly as on the
    other (same outcome, same calls of the library, same object left),
    although only [predict] converts the list. *)
Theorem list_or_stacked_array s (l : list ndarray) a (lamb_arg : option F)
    (reseed : option nat) :
  Forall (fun t => ndim t = 2 /\ well_formed t) l -> np_array l = Ok a ->
  compute_hankel (TrajList l) s = compute_hankel (Array a) s /\
  fit (Some (TrajList l)) lamb_arg s = fit (Some (Array a)) lamb_arg s /\
  predict (Some (TrajList l)) reseed s = predict (Some (Array a)) reseed s.
Proof.
  intros HF Ha. destruct (getitem_stacked HF Ha) as [Hg Hl].
  assert (H : forall s', compute_hankel (TrajList l) s' = compute_hankel (Array a) s')
    by (intros s'; now apply compute_hankel_ext).
  split; [apply H|]. split.
  - unfold fit. rewrite !bind_gets. cbv zeta. apply bind_ext_l, H.
  - unfold predict, predict_from. simpl as_array. rewrite Ha. reflexivity.
Qed.

(** *** What the methods print *)

Lemma printed_app (tr1 tr2 : list (event F ContextMeta)) :
  printed (tr1 ++ tr2) = printed tr1 ++ printed tr2.
Proof. apply flat_map_app. Qed.

Lemma silent_bind A B (m : M F ContextMeta NystroemRest A)
    (k : A -> M F ContextMeta NystroemRest B) :
  silent m -> (forall x, silent (k x)) -> silent (bind m k).
Proof.
  intros Hm Hk s. unfold bind. specialize (Hm s).
  destruct (outcome (m s)) as [x|e]; simpl; [|exact Hm].
  now rewrite printed_app, Hm, Hk.
Qed.

Lemma hankel_loop_silent trajs idxs : forall c, silent (hankel_loop trajs idxs c).
Proof.
  induction idxs as [|i idxs IH]; intros c; simpl; [intros s; reflexivity|].
  apply silent_bind; [intros s; reflexivity|intros x].
  apply silent_bind; [intros s; reflexivity|intros cwl].
  apply silent_bind; [intros s; reflexivity|intros lag].
  apply silent_bind; [|intros c1].
  { intros s.
    destruct (call_traj_to_contexts_run x cwl lag s) as (ev & res & -> & _ & _ & Hp).
    exact Hp. }
  apply silent_bind; [intros s; reflexivity|intros d]. apply IH.
Qed.

Ltac silence :=
  repeat match goal with
         | |- silent (bind _ _) => apply silent_bind; [|intros ?]
         | |- silent (match ?x with _ => _ end) => destruct x
         | |- silent (let _ := _ in _) => cbv zeta
         | |- silent _ => first [ apply hankel_loop_silent | intros ?; reflexivity ]
         end.

Lemma announces_bind A B msg (m : M F ContextMeta NystroemRest A)
    (k : A -> M F ContextMeta NystroemRest B) :
  silent m -> keeps_settings m -> (forall x, announces msg (k x)) ->
  announces msg (bind m k).
Proof.
  intros Hs Hk Ha s. unfold bind. specialize (Hs s).
  destruct (Hk s) as (_ & _ & _ & Hv & _).
  destruct (outcome (m s)) as [x|e]; simpl; [|exact Hs].
  now rewrite printed_app, Hs, (Ha x (final (m s))), Hv.
Qed.

Lemma announces_when_verbose msg :
  announces msg (bind (gets (@verbose F ContextMeta NystroemRest))
                   (fun v => when v (emit (PrintLine msg)))).
Proof. intros s. rewrite bind_gets. now destruct (verbose s). Qed.

Ltac announce :=
  repeat match goal with
         | |- announces _ (bind (gets (@verbose _ _ _)) _) => apply announces_when_verbose
         | |- announces _ (bind _ _) =>
             apply announces_bind;
             [ silence | keeps; try apply hankel_loop_keeps | intros ? ]
         end.

Lemma compute_hankel_announces trajs :
  announces "Hankel matrix computed"%string (compute_hankel trajs).
Proof. unfold compute_hankel, call_traj_to_contexts. announce. Qed.

Lemma compute_kernel_dmd_announces lamb_arg :
  announces "kernel regression complete"%string (compute_kernel_dmd lamb_arg).
Proof. unfold compute_kernel_dmd, call_fit, attr. announce. Qed.

Lemma outcome_bind A B (m : M F ContextMeta NystroemRest A)
    (k : A -> M F ContextMeta NystroemRest B) s :
  outcome (bind m k s)
  = match outcome (m s) with
    | Ok x => outcome (k x (final (m s)))
    | Raise e => Raise e
    end.
Proof. unfold bind. now destruct (outcome (m s)). Qed.

Lemma printed_bind A B (m : M F ContextMeta NystroemRest A)
    (k : A -> M F ContextMeta NystroemRest B) s :
  printed (calls (bind m k s))
  = printed (calls (m s))
    ++ match outcome (m s) with
       | Ok x => printed (calls (k x (final (m s))))
       | Raise _ => []
       end.
Proof.
  unfold bind. destruct (outcome (m s)); simpl;
    [apply printed_app | now rewrite app_nil_r].
Qed.

(** X15. What the methods print.  With [verbose] unset, none of the four
    methods prints anything.  With [verbose] set, [compute_hankel] prints
    its message exactly when it returns, and so does [compute_kernel_dmd];
    [fit] prints the first message once the contexts are built and the
    second when it returns, so what is printed tells how far a failing [fit]
    got; a [predict] that returns has printed the message of
    [compute_hankel], which it runs on the test data. *)
Theorem progress_messages s trajs (data_arg test_data : option pyobj)
    (lamb_arg : option F) (reseed : option nat) :
  announces "Hankel matrix computed"%string (compute_hankel trajs) /\
  announces "kernel regression complete"%string (compute_kernel_dmd lamb_arg) /\
  printed (calls (fit data_arg lamb_arg s))
  = (if verbose s
     then match outcome (compute_hankel
                           (match data_arg with None => data s | Some d => d end) s),
                outcome (fit data_arg lamb_arg s) with
          | Raise _, _ => []
          | Ok _, Raise _ => ["Hankel matrix computed"%string]
          | Ok _, Ok _ => ["Hankel matrix computed"%string; "kernel regression complete"%string]
          end
     else []) /\
  (verbose s = false -> printed (calls (predict test_data reseed s)) = []) /\
  (forall p, outcome (predict test_data reseed s) = Ok p -> verbose s = true ->
     printed (calls (predict test_data reseed s)) = ["Hankel matrix computed"%string]).
Proof.
  split; [apply compute_hankel_announces|].
  split; [apply compute_kernel_dmd_announces|].
  split.
  - unfold fit. rewrite !bind_gets. cbv zeta.
    set (d := match data_arg with None => data s | Some d => d end).
    set (l := match lamb_arg with None => lamb s | Some l => l end).
    rewrite printed_bind, outcome_bind, (compute_hankel_announces d s).
    destruct (compute_hankel_keeps d s) as (_ & _ & _ & Hv & _).
    destruct (outcome (compute_hankel d s)) as [[]|e]; cbv beta iota;
      [|now destruct (verbose s)].
    rewrite (compute_kernel_dmd_announces (Some l) (final (compute_hankel d s))), Hv.
    destruct (outcome (compute_kernel_dmd (Some l) (final (compute_hankel d s))));
      now destruct (verbose s).
  - assert (H : forall td r,
              (forall p, outcome (predict_from td r s) = Ok p ->
                 printed (calls (predict_from td r s))
                 = if verbose s then ["Hankel matrix computed"%string] else []) /\
              (verbose s = false -> printed (calls (predict_from td r s)) = [])).
    { intros td r. unfold predict_from.
      destruct (as_array td) as [a0|e]; mstep; [|split; [discriminate|reflexivity]].
      mstep.
      destruct (slice_axis1 _ 0 (Some (n_delays s))) as [head|e]; mstep;
        [|split; [discriminate|reflexivity]].
      destruct (set_slice_axis1 _ 0 (Some (n_delays s)) (astype float64 head))
        as [pd|e]; mstep;
        [|split; [discriminate|reflexivity]].
      rewrite printed_bind, outcome_bind, (compute_hankel_announces _ s).
      destruct (outcome (compute_hankel _ s)) as [[]|e]; cbv beta iota;
        [|split; [discriminate|reflexivity]].
      match goal with
      | |- context [calls (?m (final ?h))] => assert (Hk : silent m)
      end.
      { unfold call_predict. silence. }
      split; [intros p _ | intros Hv]; rewrite Hk, app_nil_r;
        [reflexivity | now rewrite Hv]. }
    split.
    + intros Hv. destruct reseed; [reflexivity|].
      rewrite predict_without_reseed. now apply H.
    + intros p Hp Hv. destruct reseed; [discriminate|].
      rewrite predict_without_reseed in Hp |- *.
      destruct (H (match test_data with None => data s | Some d => d end) 1) as [H1 _].
      rewrite (H1 p Hp), Hv. reflexivity.
Qed.

End Properties.

(** * The methods on the reference instance

    The theorems above applied to, and the methods run on, the reference
    instance of the library. *)

Import Reference.

(** C1 at a list of two trajectories of 3 and 4 samples, with one delay:
    the Hankel data has the 2 windows of the first trajectory, then the 3 of
    the second. *)
Lemma compute_hankel_concatenates_witness :
  consistent (model 1 1 false) /\
  documented_input (TrajList (ContextMeta := meta) [traj_a; traj_b]) /\
  outcome (run_compute_hankel (TrajList [traj_a; traj_b]) (model 1 1 false)) = Ok tt /\
  exists c,
    data (final (run_compute_hankel (TrajList [traj_a; traj_b]) (model 1 1 false)))
    = ContextsObj c /\
    ctx_data c
    = mk_nd [5; 2; 2]
        [1; 2; 3; 4;  3; 4; 5; 6;
         11; 12; 13; 14;  13; 14; 15; 16;  15; 16; 17; 18]%Z.
Proof.
  assert (Hc : consistent (model 1 1 false)) by reflexivity.
  assert (Hd : documented_input (TrajList (ContextMeta := meta) [traj_a; traj_b]))
    by (repeat constructor).
  split; [exact Hc|]. split; [exact Hd|].
  destruct (compute_hankel_concatenates traj_to_contexts dataset_getitem dataset_len
              traj_to_contexts_of (TrajList [traj_a; traj_b]) Hc Hd) as [H _].
  destruct (H (mk_contexts (mk_nd [2; 2; 2] [1; 2; 3; 4; 3; 4; 5; 6]%Z) [2; 2; 2])
              [mk_contexts
                 (mk_nd [3; 2; 2] [11; 12; 13; 14; 13; 14; 15; 16; 15; 16; 17; 18]%Z)
                 [3; 2; 2]])
    as (Ho & c & Hdata & Hctx).
  - repeat constructor.
  - right. repeat constructor; discriminate.
  - split; [exact Ho|]. exists c. split; [exact Hdata|]. rewrite Hctx. reflexivity.
Defined.



(** Membership in an explicit list, case by case. *)
Ltac finite_in :=
  repeat match goal with
         | H : In _ _ |- _ => progress cbn in H
         | H : _ \/ _ |- _ => destruct H as [H|H]
         | H : False |- _ => destruct H
         | H : _ = ?v |- _ => is_var v; subst v
         end;
  cbn; auto 10.

(** C6 at the two trajectories: five windows, none holding the last sample
    of the first trajectory together with the first sample of the second. *)
Lemma hankel_windows_within_trajectories_witness :
  consistent (model 1 1 false) /\
  documented_input (TrajList (ContextMeta := meta) [traj_a; traj_b]) /\
  exists c,
    outcome (run_compute_hankel (TrajList [traj_a; traj_b]) (model 1 1 false)) = Ok tt /\
    data (final (run_compute_hankel (TrajList [traj_a; traj_b]) (model 1 1 false)))
    = ContextsObj c /\
    windows (ctx_data c)
    = [ [[1; 2]; [3; 4]]; [[3; 4]; [5; 6]];
        [[11; 12]; [13; 14]]; [[13; 14]; [15; 16]]; [[15; 16]; [17; 18]] ]%Z /\
    forall win, In win (windows (ctx_data c)) ->
      exists i traj,
        nth_error [traj_a; traj_b] i = Some traj /\
        forall x, In x win -> In x (samples traj).
Proof.
  assert (Hc : consistent (model 1 1 false)) by reflexivity.
  assert (Hd : documented_input (TrajList (ContextMeta := meta) [traj_a; traj_b]))
    by (repeat constructor).
  split; [exact Hc|]. split; [exact Hd|].
  destruct (hankel_windows_within_trajectories
              (traj_to_contexts := traj_to_contexts)
              dataset_getitem dataset_len traj_to_contexts_of
              (TrajList [traj_a; traj_b]) (l := 2) (n := 2)
              (c0 := mk_contexts (mk_nd [2; 2; 2] [1; 2; 3; 4; 3; 4; 5; 6]%Z) [2; 2; 2])
              (cs := [mk_contexts
                        (mk_nd [3; 2; 2]
                           [11; 12; 13; 14; 13; 14; 15; 16; 15; 16; 17; 18]%Z)
                        [3; 2; 2]])
              Hc Hd)
    as (c & Ho & Hdata & Hwin & Hin).
  - apply Forall2_cons; [|apply Forall2_cons; [|apply Forall2_nil]];
      (split; [reflexivity|split; [eexists; reflexivity|split; [reflexivity|]]]);
      intros win Hw x Hx; cbn in Hw; finite_in.
  - exists c. split; [exact Ho|]. split; [exact Hdata|]. split; [exact Hwin|].
    intros win Hw. destruct (Hin win Hw) as (i & traj & ci & Ht & _ & _ & Hx).
    exists i, traj. split; assumption.
Defined.

(** C9 at the model fitted on the two trajectories: after predicting on the
    first trajectory alone, [self.data] holds that trajectory's 2 windows in
    place of the 5 windows the model was fitted on; [A_v] is as fitted. *)
Lemma predict_overwrites_data_witness :
  outcome (run_predict (Some (Array traj_a)) None fitted)
  = Ok (mk_nd [3; 2] [1; 2; 2; 3; 4; 5]%Z) /\
  (exists c_fit c,
      data fitted = ContextsObj c_fit /\
      shape (ctx_data c_fit) = [5; 2; 2] /\
      data (final (run_predict (Some (Array traj_a)) None fitted)) = ContextsObj c /\
      ctx_data c = mk_nd [2; 2; 2] [1; 2; 3; 4; 3; 4; 5; 6]%Z /\
      final (run_predict (Some (Array traj_a)) None fitted) = set_data (ContextsObj c) fitted) /\
  A_v (final (run_predict (Some (Array traj_a)) None fitted))
  = Some (mk_nd [1; 1] [30%Z]).
Proof.
  assert (H : outcome (run_predict (Some (Array traj_a)) None fitted)
              = Ok (mk_nd [3; 2] [1; 2; 2; 3; 4; 5]%Z)) by reflexivity.
  split; [exact H|].
  destruct (predict_overwrites_data 0%Z float64 traj_to_contexts dataset_getitem dataset_len
      traj_to_contexts_of nystroem_predict
              fitted (Array traj_a) H)
    as (a0 & c & Ha & Ho & Hd & Hf & Hd' & HU & HV & HK & HA).
  split.
  - eexists. exists c. split; [reflexivity|]. split; [reflexivity|].
    split; [exact Hd'|]. split; [|exact Hf].
    injection Ha as <-.
    change (ContextsObj (mk_contexts (mk_nd [2; 2; 2] [1; 2; 3; 4; 3; 4; 5; 6]%Z) [2; 2; 2])
            = ContextsObj c) in Hd.
    now injection Hd as <-.
  - transitivity (A_v fitted); [exact HA | reflexivity].
Defined.

(** C2 as stated fails.  With one delay, on the series 0, 5, 7 the toy
    model (next sample = last sample + 1) returns 0, 1, 6: the last value is
    the operator applied to the test sample 5.  A roll-out from the first
    sample would apply the operator to the prediction 1 and give 0, 1, 2.
    Accordingly the series 0, 9, 7, with the same first sample, gets other
    predictions. *)
Lemma predict_does_not_roll_out :
  outcome (run_predict (Some (Array series_057)) None fitted)
  = Ok (mk_nd [3] [0; 1; 6]%Z) /\
  ~ rolled_out toy_step 1 (samples series_057) (chunks 1 3 [0; 1; 6]%Z) /\
  rollout toy_step 1 2 [[0%Z]] = [[0]; [1]; [2]]%Z /\
  nystroem_predict (super fitted)
    (ContextsObj (mk_contexts (mk_nd [1; 2; 1] [1; 0]%Z) [1; 2; 1]))
  = Ok (mk_nd [1; 1; 1] (toy_step [[1%Z]])) /\
  outcome (run_predict (Some (Array series_097)) None fitted)
  = Ok (mk_nd [3] [0; 1; 10]%Z).
Proof.
  split; [reflexivity|]. split; [|repeat split].
  unfold rolled_out. cbn. intros H. discriminate H.
Qed.

(** C2 as the code has it, on the series 0, 5, 7: one call of the library's
    [predict] on the two windows (0, 5) and (5, 7) of the test data; its two
    results are the predictions for the samples 1 and 2. *)
Lemma predict_single_library_call_witness :
  outcome (run_predict (Some (Array series_057)) None fitted)
  = Ok (mk_nd [3] [0; 1; 6]%Z) /\
  exists c pred,
    data (final (run_compute_hankel (Array series_057) fitted)) = ContextsObj c /\
    ctx_data c = mk_nd [2; 2; 1] [0; 5; 5; 7]%Z /\
    nystroem_predict (super fitted) (ContextsObj c) = Ok pred /\
    elems pred = [1; 6]%Z /\
    predict_calls (calls (run_predict (Some (Array series_057)) None fitted)) = 1 /\
    forall i, 1 <= i -> i < 3 ->
      row 1 [0; 1; 6]%Z (0 * 3 + i) = row 1 (elems pred) (0 * (3 - 1) + (i - 1)).
Proof.
  assert (H : outcome (run_predict (Some (Array series_057)) None fitted)
              = Ok (mk_nd [3] [0; 1; 6]%Z)) by reflexivity.
  split; [exact H|].
  destruct (predict_single_library_call 0%Z float64 traj_to_contexts dataset_getitem dataset_len
      traj_to_contexts_of nystroem_predict
              fitted (Array series_057)
              (a0 := series_057) (k := 1) (t := 3) (n := 1) H)
    as (c & pred & Ho & Hd & Hp & Hpc & Hrows);
    try reflexivity.
  - cbn; lia.
  - intros c pred Hc. injection Hc as <-. intros Hp. injection Hp as <-. reflexivity.
  - exists c, pred.
    change (ContextsObj (mk_contexts (mk_nd [2; 2; 1] [0; 5; 5; 7]%Z) [2; 2; 1])
            = ContextsObj c) in Hd.
    injection Hd as <-. injection Hp as <-.
    repeat split; auto.
Defined.

(** C7 fails on the code.  [predict] ends with [squeeze], which drops every
    axis of length one: a batch of shape (1, 3, 2) comes back with shape
    (3, 2), and a 2-D series of shape (3, 1) with shape (3). *)
Theorem predict_drops_batch_axis :
  shape batch_a = [1; 3; 2] /\
  outcome (run_predict (Some (Array batch_a)) None fitted)
  = Ok (mk_nd [3; 2] [1; 2; 2; 3; 4; 5]%Z) /\
  shape series_057 = [3; 1] /\
  outcome (run_predict (Some (Array series_057)) None fitted)
  = Ok (mk_nd [3] [0; 1; 6]%Z).
Proof. repeat split. Qed.

(** With [n_delays = 2] and [delay_interval = 2], a series of 6 samples has
    6 - 2 * 2 = 2 windows, so the library returns 2 predictions; [predict]
    reshapes them to 6 - 2 = 4 time steps and raises [ValueError].  With
    [delay_interval = 1] the same call returns, its first [n_delays = 2]
    samples copied from the test data and the third already a prediction. *)
Example predict_with_delay_interval_two :
  traj_to_contexts series_odd 3 2
  = Ok (mk_contexts (mk_nd [2; 3; 1] [0; 7; 11; 5; 9; 13]%Z) [2; 3; 1]) /\
  outcome (run_predict (Some (Array series_odd)) None (fitted_two_delays 2))
  = Raise ValueError /\
  outcome (run_predict (Some (Array series_odd)) None (fitted_two_delays 1))
  = Ok (mk_nd [6] [0; 5; 6; 8; 10; 12]%Z).
Proof. repeat split. Qed.



(** The reference [traj_to_contexts] does what [embeds] asks of the library,
    on every well-formed 2-D trajectory: its windows are made of samples of
    the trajectory it is given. *)
Lemma reference_traj_to_contexts_embeds traj cwl lag t n c :
  shape traj = [t; n] -> well_formed traj ->
  traj_to_contexts traj cwl lag = Ok c ->
  embeds traj_to_contexts cwl lag cwl n traj c.
Proof.
  intros Hs Hw Hc. split; [exact Hc|].
  unfold traj_to_contexts in Hc. rewrite Hs in Hc. cbn [trajectory_shape] in Hc.
  destruct ((cwl <? 1) || (lag <? 1) || (t <? 1 + (cwl - 1) * lag)) eqn:Eg; [discriminate|].
  apply orb_false_iff in Eg as [Eg Et]. apply orb_false_iff in Eg as [Ec El].
  apply Nat.ltb_ge in Ec, El, Et.
  cbn [size_of fold_right] in Hc. rewrite Nat.mul_1_r in Hc.
  unfold well_formed in Hw. rewrite Hs in Hw. cbn [size_of fold_right] in Hw.
  rewrite Nat.mul_1_r in Hw.
  set (w := t - (1 + (cwl - 1) * lag) + 1) in *.
  set (rows := chunks n t (elems traj)) in *.
  set (window := fun i => concat (map (fun j => nth (i + j * lag) rows []) (seq 0 cwl))) in *.
  injection Hc as <-. cbn [ctx_data shape elems].
  assert (Hrows : Forall (fun r => List.length r = n) rows)
    by (apply chunks_Forall_length; lia).
  assert (Hlr : List.length rows = t) by apply chunks_length.
  assert (Hidx : forall i j, i < w -> j < cwl -> i + j * lag < t).
  { intros i j Hi Hj. subst w.
    assert (j * lag <= (cwl - 1) * lag) by (apply Nat.mul_le_mono_r; lia). lia. }
  assert (Hpick : forall i, i < w ->
            Forall (fun r => List.length r = n)
              (map (fun j => nth (i + j * lag) rows []) (seq 0 cwl))).
  { intros i Hi. apply Forall_map, Forall_forall. intros j Hj.
    apply in_seq in Hj. apply nth_Forall_length; [assumption|].
    rewrite Hlr. apply Hidx; lia. }
  assert (Hwin : Forall (fun b => List.length b = cwl * n) (map window (seq 0 w))).
  { apply Forall_map, Forall_forall. intros i Hi. apply in_seq in Hi.
    unfold window. rewrite (concat_length_blocks (Hpick i ltac:(lia))).
    now rewrite length_map, length_seq. }
  split; [eexists; reflexivity|]. split.
  - unfold well_formed. cbn [shape elems size_of fold_right].
    rewrite (concat_length_blocks Hwin), length_map, length_seq. lia.
  - intros win Hin x Hx. unfold windows in Hin. cbn [ctx_data shape elems] in Hin.
    rewrite chunks_concat_len in Hin;
      [| now rewrite length_map, length_seq | assumption].
    rewrite map_map in Hin. apply in_map_iff in Hin as (i & <- & Hi).
    apply in_seq in Hi. unfold window in Hx.
    rewrite chunks_concat_len in Hx;
      [| now rewrite length_map, length_seq | apply Hpick; lia].
    apply in_map_iff in Hx as (j & <- & Hj). apply in_seq in Hj.
    unfold samples. rewrite Hs. fold rows.
    apply nth_In. rewrite Hlr. apply Hidx; lia.
Qed.

(** C3 on the reference instance: [fit] on the two trajectories embeds each,
    calls the inherited [fit] once on the stacked contexts, with the
    regularisation kept by [__init__], and computes
    [A_v = 3 * 5 * 2 / 1 = 30] from the toy factors. *)
Example fit_on_reference :
  outcome (run_fit (Some (TrajList [traj_a; traj_b])) None (model 1 1 true)) = Ok tt /\
  (exists c,
      data fitted = ContextsObj c /\
      calls (run_fit (Some (TrajList [traj_a; traj_b])) None (model 1 1 true))
      = [CallTrajToContexts traj_a 2 1; CallTrajToContexts traj_b 2 1;
         PrintLine "Hankel matrix computed"; CallFit (ContextsObj c);
         PrintLine "kernel regression complete"]) /\
  tikhonov_reg (super fitted) = Some 0%Z /\
  A_v fitted = Some (mk_nd [1; 1] [30%Z]).
Proof. split; [reflexivity|]. split; [eexists; split; reflexivity|]. split; reflexivity. Qed.

(** ** The further properties on the reference instance *)

(** X1 at a 3-D array with no trajectory and at the empty list. *)
Lemma compute_hankel_empty_batch_witness :
  documented_input (Array (ContextMeta := meta) (mk_nd [0; 3; 2] (@nil scalar))) /\
  run_compute_hankel (Array (mk_nd [0; 3; 2] (@nil scalar))) (model 1 1 false)
  = mk_run (Raise IndexError) (model 1 1 false) [] /\
  run_fit (Some (TrajList [])) None (model 1 1 false)
  = mk_run (Raise IndexError) (model 1 1 false) [].
Proof.
  assert (Hdoc : documented_input (Array (ContextMeta := meta) (mk_nd [0; 3; 2] (@nil scalar))))
    by (split; [right|]; reflexivity).
  split; [exact Hdoc|]. split.
  - exact (proj1 (compute_hankel_empty_batch traj_to_contexts dataset_getitem dataset_len
      traj_to_contexts_of
                    nystroem_fit matmul
                    transpose true_divide (model 1 1 false)
                    (Array (mk_nd [0; 3; 2] (@nil scalar))) None Hdoc eq_refl)).
  - exact (proj2 (compute_hankel_empty_batch traj_to_contexts dataset_getitem dataset_len
      traj_to_contexts_of
                    nystroem_fit matmul
                    transpose true_divide (model 1 1 false)
                    (TrajList []) None (Forall_nil _) eq_refl)).
Defined.

(** X2 at a batch whose second trajectory, of one sample, is too short for
    a window of two: the library's [ValueError] comes out, and the two
    windows of the first trajectory are not stored. *)
Lemma compute_hankel_library_error_witness :
  traj_to_contexts (mk_nd [1; 2] [7; 8]%Z) 2 1 = Raise ValueError /\
  outcome (run_compute_hankel (TrajList [traj_a; mk_nd [1; 2] [7; 8]%Z]) (model 1 1 false))
  = Raise ValueError /\
  final (run_compute_hankel (TrajList [traj_a; mk_nd [1; 2] [7; 8]%Z]) (model 1 1 false))
  = model 1 1 false.
Proof.
  split; [reflexivity|].
  apply (compute_hankel_library_error traj_to_contexts dataset_getitem dataset_len
      traj_to_contexts_of
           (model 1 1 false)
           (TrajList [traj_a; mk_nd [1; 2] [7; 8]%Z])
           (pre := [traj_a]) (mk_nd [1; 2] [7; 8]%Z) []
           (cs := [mk_contexts (mk_nd [2; 2; 2] [1; 2; 3; 4; 3; 4; 5; 6]%Z) [2; 2; 2]])).
  - repeat constructor.
  - reflexivity.
  - constructor; [reflexivity | constructor].
  - intros c0 cs' [= <- <-]. left. reflexivity.
  - reflexivity.
Defined.

(** X3 at a trajectory of dimension 2 followed by one of dimension 1. *)
Lemma compute_hankel_dimension_mismatch_witness :
  shape traj_a = [3; 2] /\ shape series_057 = [3; 1] /\
  outcome (run_compute_hankel (TrajList [traj_a; series_057]) (model 1 1 false))
  = Raise ValueError /\
  final (run_compute_hankel (TrajList [traj_a; series_057]) (model 1 1 false))
  = model 1 1 false.
Proof.
  split; [reflexivity|]. split; [reflexivity|].
  apply (compute_hankel_dimension_mismatch traj_to_contexts dataset_getitem dataset_len
      traj_to_contexts_of
           (model 1 1 false)
           (TrajList [traj_a; series_057])
           (t0 := traj_a) (pre := []) (t := series_057) (post := [])
           (c0 := mk_contexts (mk_nd [2; 2; 2] [1; 2; 3; 4; 3; 4; 5; 6]%Z) [2; 2; 2])
           (cs := [])
           (c := mk_contexts (mk_nd [2; 2; 1] [0; 5; 5; 7]%Z) [2; 2; 1])).
  - repeat constructor.
  - reflexivity.
  - constructor; [reflexivity | constructor].
  - left. reflexivity.
  - reflexivity.
  - cbn. discriminate.
Defined.

(** X4 at the two trajectories, with [verbose] set: two calls of the
    library and the message; the object stored has the five windows of both
    trajectories as its data and still records the shape of the first
    trajectory's contexts, two windows. *)
Lemma compute_hankel_library_calls_witness :
  calls (run_compute_hankel (TrajList [traj_a; traj_b]) (model 1 1 true))
  = [CallTrajToContexts traj_a 2 1; CallTrajToContexts traj_b 2 1;
     PrintLine "Hankel matrix computed"] /\
  exists c,
    data (final (run_compute_hankel (TrajList [traj_a; traj_b]) (model 1 1 true)))
    = ContextsObj c /\
    ctx_meta c = [2; 2; 2] /\
    shape (ctx_data c) = [5; 2; 2].
Proof.
  destruct (compute_hankel_library_calls traj_to_contexts dataset_getitem dataset_len
      traj_to_contexts_of
           (model 1 1 true)
              (TrajList [traj_a; traj_b])
              (c0 := mk_contexts (mk_nd [2; 2; 2] [1; 2; 3; 4; 3; 4; 5; 6]%Z) [2; 2; 2])
              (cs := [mk_contexts
                        (mk_nd [3; 2; 2] [11; 12; 13; 14; 13; 14; 15; 16; 15; 16; 17; 18]%Z)
                        [3; 2; 2]]))
    as (Hc & c & Hd & Hm).
  - repeat constructor.
  - repeat constructor.
  - right. repeat constructor; discriminate.
  - split; [exact Hc|]. exists c. split; [exact Hd|]. split; [exact Hm|].
    vm_compute in Hd. injection Hd as <-. reflexivity.
Defined.

(** X10 at a 1-D series and at the empty list. *)
Lemma predict_needs_two_axes_witness :
  ndim (mk_nd [3] [0; 5; 7]%Z) < 2 /\
  run_predict (Some (Array (mk_nd [3] [0; 5; 7]%Z))) None fitted
  = mk_run (Raise IndexError) fitted [] /\
  run_predict (Some (TrajList [])) None fitted
  = mk_run (Raise IndexError) fitted [].
Proof.
  assert (H : ndim (mk_nd [3] [0; 5; 7]%Z) < 2) by (cbn; lia).
  split; [exact H|]. split.
  - exact (predict_needs_two_axes 0%Z float64 traj_to_contexts dataset_getitem dataset_len
      traj_to_contexts_of nystroem_predict fitted
             (Array (mk_nd [3] [0; 5; 7]%Z)) eq_refl H).
  - apply (predict_needs_two_axes 0%Z float64 traj_to_contexts dataset_getitem dataset_len
      traj_to_contexts_of nystroem_predict fitted
             (TrajList []) (a := mk_nd [0] [])); [reflexivity | cbn; lia].
Defined.

(** X11 at the model with two delays and delay interval two, on the series
    of six samples: [predict] raises [ValueError] at the reshape, and
    [self.data] holds the two windows of the test series. *)
Lemma predict_leaves_test_contexts_witness :
  outcome (run_predict (Some (Array series_odd)) None (fitted_two_delays 2))
  = Raise ValueError /\
  final (run_predict (Some (Array series_odd)) None (fitted_two_delays 2))
  = final (run_compute_hankel (Array series_odd) (fitted_two_delays 2)) /\
  data (final (run_predict (Some (Array series_odd)) None (fitted_two_delays 2)))
  = ContextsObj (mk_contexts (mk_nd [2; 3; 1] [0; 7; 11; 5; 9; 13]%Z) [2; 3; 1]).
Proof.
  split; [reflexivity|].
  destruct (predict_leaves_test_contexts 0%Z float64 traj_to_contexts dataset_getitem dataset_len
      traj_to_contexts_of nystroem_predict
              (fitted_two_delays 2) (Array series_odd) (a0 := series_odd))
    as [Hf _].
  - reflexivity.
  - cbn; lia.
  - reflexivity.
  - split; [exact Hf|]. reflexivity.
Defined.

(** X12 at a trajectory of shape (3, 2): no axis of length one, and the
    predictions have the shape of the test data. *)
Lemma predict_shape_preserved_iff_witness :
  outcome (run_predict (Some (Array traj_a)) None fitted)
  = Ok (mk_nd [3; 2] [1; 2; 2; 3; 4; 5]%Z) /\
  Forall (fun d => d <> 1) (shape traj_a) /\
  shape (mk_nd [3; 2] [1; 2; 2; 3; 4; 5]%Z) = shape traj_a.
Proof.
  assert (H : outcome (run_predict (Some (Array traj_a)) None fitted)
              = Ok (mk_nd [3; 2] [1; 2; 2; 3; 4; 5]%Z)) by reflexivity.
  assert (HF : Forall (fun d => d <> 1) (shape traj_a))
    by (repeat constructor; discriminate).
  split; [exact H|]. split; [exact HF|].
  exact (proj2 (predict_shape_preserved_iff 0%Z float64 traj_to_contexts dataset_getitem dataset_len
      traj_to_contexts_of nystroem_predict
                  fitted (Array traj_a) H eq_refl) HF).
Defined.

(** X13 at the model with one delay, on the integer series 2^53 + 1, 5, 7:
    the first sample of the predictions is the first sample of the test data
    as a double, 2^53. *)
Lemma predict_copies_n_delays_witness :
  outcome (run_predict (Some (Array series_big)) None fitted)
  = Ok (mk_nd [3] [9007199254740992; 9007199254740994; 6]%Z) /\
  map float64 (row 1 (elems series_big) 0) = [9007199254740992%Z] /\
  forall i, i < 1 ->
    row 1 [9007199254740992; 9007199254740994; 6]%Z (0 * 3 + i)
    = map float64 (row 1 (elems series_big) (0 * 3 + i)).
Proof.
  assert (H : outcome (run_predict (Some (Array series_big)) None fitted)
              = Ok (mk_nd [3] [9007199254740992; 9007199254740994; 6]%Z))
    by (vm_compute; reflexivity).
  split; [exact H|]. split; [vm_compute; reflexivity|]. intros i Hi.
  apply (predict_copies_n_delays 0%Z float64 traj_to_contexts dataset_getitem
           dataset_len traj_to_contexts_of nystroem_predict fitted (Array series_big)
           (a0 := series_big) (k := 1) (t := 3) (n := 1) H); try reflexivity.
  - cbn; lia.
  - intros c pred Hc Hp. vm_compute in Hc. injection Hc as <-.
    vm_compute in Hp. injection Hp as <-. reflexivity.
  - lia.
  - exact Hi.
Defined.

(** X14 at two trajectories of three samples and the array of shape
    (2, 3, 2) that stacks them. *)
Lemma list_or_stacked_array_witness :
  np_array [traj_a; mk_nd [3; 2] [7; 8; 9; 10; 11; 12]%Z]
  = Ok (mk_nd [2; 3; 2] [1; 2; 3; 4; 5; 6; 7; 8; 9; 10; 11; 12]%Z) /\
  run_compute_hankel (TrajList [traj_a; mk_nd [3; 2] [7; 8; 9; 10; 11; 12]%Z]) fitted
  = run_compute_hankel
      (Array (mk_nd [2; 3; 2] [1; 2; 3; 4; 5; 6; 7; 8; 9; 10; 11; 12]%Z)) fitted /\
  run_fit (Some (TrajList [traj_a; mk_nd [3; 2] [7; 8; 9; 10; 11; 12]%Z])) None fitted
  = run_fit
      (Some (Array (mk_nd [2; 3; 2] [1; 2; 3; 4; 5; 6; 7; 8; 9; 10; 11; 12]%Z))) None fitted /\
  run_predict (Some (TrajList [traj_a; mk_nd [3; 2] [7; 8; 9; 10; 11; 12]%Z])) None fitted
  = run_predict
      (Some (Array (mk_nd [2; 3; 2] [1; 2; 3; 4; 5; 6; 7; 8; 9; 10; 11; 12]%Z))) None fitted.
Proof.
  split; [reflexivity|].
  apply (list_or_stacked_array 0%Z float64 traj_to_contexts dataset_getitem dataset_len
      traj_to_contexts_of nystroem_fit nystroem_predict
           matmul transpose true_divide fitted
           (l := [traj_a; mk_nd [3; 2] [7; 8; 9; 10; 11; 12]%Z])
           (a := mk_nd [2; 3; 2] [1; 2; 3; 4; 5; 6; 7; 8; 9; 10; 11; 12]%Z) None None).
  - repeat constructor.
  - reflexivity.
Defined.
